(** * LightAirQ: a shallow embedding of the CityAir client

    The development follows [src/LightAirQ/LightAirQ.py] and
    [src/LightAirQ/exceptions.py].

    Conventions of the embedding.
    - A Python [int] is an integer ([Z]).  A Python [float] is read as the
      real number it denotes ([R]): arithmetic on floats is exact in the
      embedding, and the values [nan], [inf] and [-inf] have no counterpart,
      so a statement below speaks of finite floats and of distances up to
      rounding.  An [int] converts to [float] only within the range of the
      type; beyond it the conversion raises [OverflowError].
    - A JSON document (what [response.json()] returns) is a [value]; a JSON
      object, i.e. a Python [dict] with [str] keys, is a finite map
      [gmap string value].
    - An operation that may raise returns a [result]: [Ok v] for a normal
      return, [Err e] for a raised exception [e].  A [try ... except] block is
      a function from the outcome of the body to the outcome of the block,
      testing the [except] clauses in the order of the source.
    - The post records that [sort_posts_in_order_of_increasing_distance]
      mutates are objects in a [heap]; the [posts] argument is a list of
      references into it.
    - Logging ([loguru]) has no effect on any returned or raised value and is
      left out. *)

From Stdlib Require Import Reals Lra Lia ZArith String FunctionalExtensionality.
From stdpp Require Import base option list functions gmap strings pretty sorting.

#[local] Set Warnings "-register-all".

(** ** Python values *)

Inductive value : Type :=
| VNone
| VBool (b : bool)
| VInt (n : Z)
| VFloat (x : R)
| VStr (s : string)
| VList (l : list value)
| VDict (d : gmap string value).

Abbreviation dict := (gmap string value).

(** [bool(v)]: the truth value Python gives [v] in [if v] and [not v]. *)
Definition truthy (v : value) : bool :=
  match v with
  | VNone => false
  | VBool b => b
  | VInt n => negb (n =? 0)%Z
  | VFloat x => if Req_dec_T x 0 then false else true
  | VStr s => negb (String.eqb s "")
  | VList l => match l with [] => false | _ :: _ => true end
  | VDict d => negb (bool_decide (size d = 0%nat))
  end.

(** A pair of coordinates, [Tuple[float, float]] in the annotations: a tuple
    of two components, each whatever the caller or the server supplied.  (A
    reference point of another length is not a [point].) *)
Definition point : Type := value * value.

(** ** The [requests] library, as far as [__make_request] depends on it

    The exception classes are those of [requests.exceptions] in the releases
    that export [requests.JSONDecodeError], the name the source uses: every
    class derives from [RequestException]; [JSONDecodeError] derives from
    [InvalidJSONError], which derives from [RequestException]. *)
Module requests.

Inductive exception : Type :=
| HTTPError
| ConnectionError
| ConnectTimeout
| ReadTimeout
| TooManyRedirects
| InvalidURL
| JSONDecodeError.

Definition is_HTTPError (e : exception) : bool :=
  match e with HTTPError => true | _ => false end.

Definition is_RequestException (e : exception) : bool := true.

Definition is_JSONDecodeError (e : exception) : bool :=
  match e with JSONDecodeError => true | _ => false end.

(** A response: its status code, its body as text, and what
    [response.json()] makes of the body ([None] when the body is not JSON, in
    which case [json()] raises [JSONDecodeError]). *)
Record Response : Type := {
  status_code : Z;
  text : string;
  json : option value;
}.

(** Whether [Response.raise_for_status] raises [HTTPError]: it does for the
    client and server error codes, 400 to 599, and returns otherwise. *)
Definition raise_for_status (response : Response) : bool :=
  (400 <=? status_code response)%Z && (status_code response <? 600)%Z.

End requests.

(** ** Exceptions *)

(** Built-in exception classes the code names in its [except] clauses,
    [OverflowError] for an [int] beyond the range of [float], and
    [UnboundLocalError] for a handler that reads a local never assigned. *)
Inductive builtin_error : Type :=
| TypeError | ValueError | KeyError | AttributeError | IndexError
| OverflowError | UnboundLocalError.

#[local] Instance builtin_error_eq_dec : EqDecision builtin_error.
Proof. solve_decision. Defined.

(** Query parameters of a request: the keyword arguments of
    [__make_request].  A [datetime] is counted in microseconds. *)
Inductive param : Type :=
| PInt (n : Z)
| PStr (s : string)
| PDatetime (microseconds : Z).

Definition params : Type := list (string * param).

(** Exception objects, by class, with the arguments each is constructed
    from at its [raise] (exceptions.py); [RequestsError] is an exception of
    the [requests] library that leaves the client as it is. *)
Inductive exn : Type :=
| Builtin (e : builtin_error)
| RequestsError (e : requests.exception)
| HaversineFormulaError (point1 point2 : point)
| SendRequestError (p : params) (url : string)
| StatusCodeError (p : params) (url : string)
    (response_code : Z) (response_text : string)
| DecodingError (p : params) (url : string)
    (response_code : Z) (response_text : string)
| GetPostsError (data : value)
| SortPostsError (data : list dict)
| GetMeasurementError (data : value).

(** The message an exception class of exceptions.py builds in [__init__]
    and hands to [Exception]: the literal text and the formatted fields of
    its f-string, in order.  The second literal of [StatusCodeError] and of
    [DecodingError] has no [f] prefix and is kept as written. *)
Inductive piece : Type :=
| Text (s : string)
| Newline
| Field_params (p : params)
| Field_str (s : string)
| Field_int (n : Z)
| Field_point (p : point)
| Field_value (v : value)
| Field_posts (data : list dict).

Definition message (e : exn) : option (list piece) :=
  match e with
  | HaversineFormulaError point1 point2 =>
      Some [Text "An error occurred when calculating the distance between points;";
            Newline; Text "Coordinates: "; Field_point point1; Text " & ";
            Field_point point2]
  | SendRequestError p url =>
      Some [Text "An error occurred while sending the request;"; Newline;
            Text "Params: "; Field_params p; Newline;
            Text "Url: "; Field_str url]
  | StatusCodeError p url response_code response_text =>
      Some [Text "Invalid status code received;"; Newline;
            Text "Params: "; Field_params p; Newline;
            Text "Url: "; Field_str url; Newline;
            Text "Code: "; Field_int response_code; Newline;
            Text "Text: {response_text}"]
  | DecodingError p url response_code response_text =>
      Some [Text "Couldn't decode the text into json;"; Newline;
            Text "Params: "; Field_params p; Newline;
            Text "Url: "; Field_str url; Newline;
            Text "Code: "; Field_int response_code; Newline;
            Text "Text: {response_text}"]
  | GetPostsError data =>
      Some [Text "Failed to process data when requesting available posts;";
            Newline; Text "Data: "; Field_value data]
  | SortPostsError data =>
      Some [Text "Data could not be processed when sorting by increasing the distance;";
            Newline; Text "Data: "; Field_posts data]
  | GetMeasurementError data =>
      Some [Text "Data could not be processed when receiving the last measurement from the post;";
            Newline; Text "Data: "; Field_value data]
  | Builtin _ | RequestsError _ => None
  end.

(** The class hierarchy of exceptions.py, as [isinstance] tests. *)
Definition is_DistanceException (e : exn) : bool :=
  match e with HaversineFormulaError _ _ => true | _ => false end.

Definition is_RequestException (e : exn) : bool :=
  match e with
  | SendRequestError _ _ | StatusCodeError _ _ _ _ | DecodingError _ _ _ _ =>
      true
  | _ => false
  end.

Definition is_DataTransformationException (e : exn) : bool :=
  match e with
  | GetPostsError _ | SortPostsError _ | GetMeasurementError _ => true
  | _ => false
  end.

Definition is_LightAirQException (e : exn) : bool :=
  is_DistanceException e || is_RequestException e
  || is_DataTransformationException e.

(** [isinstance(e, (c1, ..., cn))] for built-in classes. *)
Definition is_builtin (classes : list builtin_error) (e : exn) : bool :=
  match e with
  | Builtin b => bool_decide (b ∈ classes)
  | _ => false
  end.

(** ** Results *)

Inductive result (A : Type) : Type :=
| Ok (a : A)
| Err (e : exn).
Arguments Ok {A} a.
Arguments Err {A} e.

#[global] Instance result_ret : MRet result := λ A a, Ok a.

#[global] Instance result_bind : MBind result := λ A B k r,
  match r with
  | Ok a => k a
  | Err e => Err e
  end.

Definition is_Ok {A : Type} (r : result A) : bool :=
  match r with Ok _ => true | Err _ => false end.

(** ** Geodesic distance: [LightAirQ.__haversine] *)

(** The conversion to [float] that the functions of [math] apply to their
    argument.  A [bool] and an [int] convert, the latter only when it rounds
    to a finite float, that is below [2 ^ 1024 - 2 ^ 970] in absolute value,
    and is an [OverflowError] otherwise; anything that is not a number is a
    [TypeError]. *)
Definition as_float (v : value) : result R :=
  match v with
  | VBool b => Ok (if b then 1%R else 0%R)
  | VInt n =>
      if (Z.abs n <? 2 ^ 1024 - 2 ^ 970)%Z then Ok (IZR n)
      else Err (Builtin OverflowError)
  | VFloat x => Ok x
  | _ => Err (Builtin TypeError)
  end.

(** [math.radians]. *)
Definition radians (v : value) : result R :=
  x ← as_float v;
  Ok (x * (PI / 180))%R.

(** [math.pow] at a natural exponent. *)
Definition math_pow (x : R) (n : nat) : R := (x ^ n)%R.

(** [math.sqrt]: a negative argument is a [ValueError]. *)
Definition math_sqrt (x : R) : result R :=
  if Rlt_dec x 0 then Err (Builtin ValueError) else Ok (sqrt x).

(** [math.asin]: an argument outside [-1, 1] is a [ValueError]. *)
Definition math_asin (x : R) : result R :=
  if Rlt_dec x (-1) then Err (Builtin ValueError)
  else if Rlt_dec 1 x then Err (Builtin ValueError)
  else Ok (asin x).

(** The [try] block of [__haversine] (lines 57 to 65). *)
Definition haversine_body (point1 point2 : point) : result R :=
  latitude1 ← radians point1.1;
  longitude1 ← radians point1.2;
  latitude2 ← radians point2.1;
  longitude2 ← radians point2.2;
  let dlat := (latitude2 - latitude1)%R in
  let dlon := (longitude2 - longitude1)%R in
  let hav := (math_pow (sin (dlat / 2)) 2
              + cos latitude1 * cos latitude2 * math_pow (sin (dlon / 2)) 2)%R in
  root ← math_sqrt hav;
  angle ← math_asin root;
  Ok (6371 * 2 * angle)%R.

(** [__haversine] with its [except] clauses: [TypeError] and [ValueError]
    become [HaversineFormulaError(point1, point2)], anything else (an
    [OverflowError]) is raised again as it is. *)
Definition __haversine (point1 point2 : point) : result R :=
  match haversine_body point1 point2 with
  | Ok distance => Ok distance
  | Err err =>
      if is_builtin [TypeError; ValueError] err
      then Err (HaversineFormulaError point1 point2)
      else Err err
  end.

(** ** The client object *)

Definition DEFAULT_HOST : string := "https://api.cityscreen.io".
Definition POSTS_URL : string := "harvester/v2/Posts".
Definition MEASUREMENTS_URL : string := "harvester/v2/Posts/measurements".
Definition TIMEOUT : Z := 10.

(** The fields of a [LightAirQ] object.  [session_get url params timeout] is
    [self.__session.get(url, params=params, timeout=timeout)]: the server's
    response, or the exception of the [requests] library the call raised.
    (A call that raises an exception of another class is not described.) *)
Record LightAirQ : Type := {
  host_url : string;
  timeout : Z;
  headers : list (string * string);
  session_get : string → params → Z → requests.exception + requests.Response;
}.

(** [LightAirQ.__init__]; [network] stands for the world a session with the
    given headers talks to. *)
Definition __init__
    (network : list (string * string) → string → params → Z →
               requests.exception + requests.Response)
    (token : string) (host_url : string) (timeout : Z) : LightAirQ :=
  let headers :=
    [("Content-Type", "application/json");
     ("Connection", "keep-alive");
     ("Authorization", ("Bearer " ++ token)%string)] in
  {| host_url := host_url;
     timeout := timeout;
     headers := headers;
     session_get := network headers |}.

(** ** Transport: [LightAirQ.__make_request] *)

(** The [try] block (lines 93 to 103): the response, once there is one, and
    either the exception raised or the value returned. *)
Definition make_request_body (self : LightAirQ) (url : string) (p : params)
    : option requests.Response * (requests.exception + value) :=
  match session_get self url p (timeout self) with
  | inl err => (None, inl err)
  | inr response =>
      (Some response,
       if requests.raise_for_status response then inl requests.HTTPError
       else match requests.json response with
            | None => inl requests.JSONDecodeError
            | Some response_json =>
                if negb (truthy response_json) then inl requests.HTTPError
                else inr response_json
            end)
  end.

(** The [except] clauses (lines 105 to 119), tested in the order of the
    source.  [response] is unbound when [session.get] itself raised. *)
Definition make_request_except (p : params) (url : string)
    (response : option requests.Response) (err : requests.exception) : exn :=
  if requests.is_HTTPError err then
    match response with
    | Some r =>
        StatusCodeError p url (requests.status_code r) (requests.text r)
    | None => Builtin UnboundLocalError
    end
  else if requests.is_RequestException err then SendRequestError p url
  else if requests.is_JSONDecodeError err then
    match response with
    | Some r => DecodingError p url (requests.status_code r) (requests.text r)
    | None => Builtin UnboundLocalError
    end
  else RequestsError err.

Definition __make_request (self : LightAirQ) (method_url : string)
    (kwargs : params) : result value :=
  let p := kwargs in
  let url := (host_url self ++ "/" ++ method_url)%string in
  let '(response, outcome) := make_request_body self url p in
  match outcome with
  | inr response_json => Ok response_json
  | inl err => Err (make_request_except p url response err)
  end.

(** ** Post catalog: [LightAirQ.get_available_posts] *)

(** One turn of the loop over [posts] (lines 134 and 135): the post as the
    turn leaves it, and the exception raised, if any.  [post.pop("geo")] is a
    [KeyError] on a dict without the key, a [TypeError] on a list (whose
    [pop] wants an index) and an [AttributeError] on anything else;
    [.items()] is an [AttributeError] on anything but a dict. *)
Definition flatten_geo (post : value) : value * option exn :=
  match post with
  | VDict d =>
      match d !! "geo" with
      | None => (post, Some (Builtin KeyError))
      | Some geo =>
          let popped := delete "geo" d in
          match geo with
          | VDict items =>
              (VDict (map_fold
                        (λ dict_key dict_value (acc : dict),
                           <[dict_key := dict_value]> acc)
                        popped items),
               None)
          | _ => (VDict popped, Some (Builtin AttributeError))
          end
      end
  | VList _ => (post, Some (Builtin TypeError))
  | _ => (post, Some (Builtin AttributeError))
  end.

(** The loop over a list of posts: it stops at the first post that raises,
    leaving the later ones as they were. *)
Fixpoint flatten_posts (posts : list value) : list value * option exn :=
  match posts with
  | [] => ([], None)
  | post :: rest =>
      match flatten_geo post with
      | (post', Some err) => (post' :: rest, Some err)
      | (post', None) =>
          let '(rest', outcome) := flatten_posts rest in
          (post' :: rest', outcome)
      end
  end.

(** [for post in posts] over whatever JSON value the server sent: a list
    yields its elements; a dict yields its keys and a string its characters,
    all of them [str], which has no [pop]; the rest is not iterable. *)
Definition flatten_response (posts : value) : value * option exn :=
  match posts with
  | VList l => let '(l', outcome) := flatten_posts l in (VList l', outcome)
  | VDict d =>
      (posts,
       if bool_decide (size d = 0%nat) then None
       else Some (Builtin AttributeError))
  | VStr s =>
      (posts,
       if String.eqb s "" then None else Some (Builtin AttributeError))
  | _ => (posts, Some (Builtin TypeError))
  end.

(** The [except] clauses of [get_available_posts] (lines 139 to 148);
    [posts] is unbound when the request itself raised. *)
Definition get_available_posts_except (posts : option value) (err : exn)
    : exn :=
  if is_RequestException err then err
  else if is_builtin [TypeError; AttributeError; KeyError] err then
    match posts with
    | Some data => GetPostsError data
    | None => Builtin UnboundLocalError
    end
  else err.

Definition get_available_posts (self : LightAirQ) : result value :=
  match __make_request self POSTS_URL [] with
  | Err err => Err (get_available_posts_except None err)
  | Ok posts =>
      match flatten_response posts with
      | (posts', None) => Ok posts'
      | (posts', Some err) =>
          Err (get_available_posts_except (Some posts') err)
      end
  end.

(** ** Subscripts and methods of Python values used below *)

(** [d[key]] on a dict. *)
Definition dict_getitem (d : dict) (key : string) : result value :=
  match d !! key with
  | Some v => Ok v
  | None => Err (Builtin KeyError)
  end.

(** [v[key]] for a [str] key: only a dict takes one. *)
Definition getitem (v : value) (key : string) : result value :=
  match v with
  | VDict d => dict_getitem d key
  | _ => Err (Builtin TypeError)
  end.

(** [l[index]] on a list, for an index that is not negative. *)
Definition list_getitem {A : Type} (l : list A) (index : nat) : result A :=
  match l !! index with
  | Some x => Ok x
  | None => Err (Builtin IndexError)
  end.

Fixpoint last_character (s : string) : option Ascii.ascii :=
  match s with
  | EmptyString => None
  | String c EmptyString => Some c
  | String _ rest => last_character rest
  end.

(** [v[-1]]: the last element of a list, the last character of a string; a
    dict has no key [-1]. *)
Definition getitem_last (v : value) : result value :=
  match v with
  | VList l =>
      match last l with
      | Some x => Ok x
      | None => Err (Builtin IndexError)
      end
  | VStr s =>
      match last_character s with
      | Some c => Ok (VStr (String c EmptyString))
      | None => Err (Builtin IndexError)
      end
  | VDict _ => Err (Builtin KeyError)
  | _ => Err (Builtin TypeError)
  end.

(** [v.pop(key)] for a [str] key: the value removed and the dict left. *)
Definition pop (v : value) (key : string) : result (value * dict) :=
  match v with
  | VDict d =>
      match d !! key with
      | Some x => Ok (x, delete key d)
      | None => Err (Builtin KeyError)
      end
  | VList _ => Err (Builtin TypeError)
  | _ => Err (Builtin AttributeError)
  end.

Fixpoint is_substring (needle haystack : string) : bool :=
  String.prefix needle haystack
  || match haystack with
     | EmptyString => false
     | String _ rest => is_substring needle rest
     end.

(** [key in container] for a [str] key: a key of a dict, an element of a
    list, a substring of a string. *)
Definition contains (container : value) (key : string) : result bool :=
  match container with
  | VDict d => Ok (bool_decide (is_Some (d !! key)))
  | VList l =>
      Ok (existsb
            (λ v, match v with VStr s => String.eqb s key | _ => false end) l)
  | VStr s => Ok (is_substring key s)
  | _ => Err (Builtin TypeError)
  end.

(** ** Proximity ranking:
       [LightAirQ.sort_posts_in_order_of_increasing_distance] *)

(** Post records are dict objects on the heap; [posts] holds references. *)
Abbreviation ref := nat.
Abbreviation heap := (ref → dict).

(** [a < b] on the [(distance, index)] tuples: decided by the first
    component in which the two differ. *)
Definition tuple_lt (a b : R * nat) : Prop :=
  (a.1 < b.1)%R ∨ (a.1 = b.1 ∧ (a.2 < b.2)%nat).

#[global] Instance Rlt_decision (x y : R) : Decision (x < y)%R := Rlt_dec x y.
#[global] Instance Req_decision : EqDecision R := Req_dec_T.
#[global] Instance tuple_lt_dec : RelDecision tuple_lt.
Proof. intros a b. unfold tuple_lt. apply _. Defined.

(** [list.sort()]: a stable merge sort that uses [<] only; of two runs it
    takes the head of the left one unless the head of the right one is
    smaller. *)
Definition list_sort (l : list (R * nat)) : list (R * nat) :=
  merge_sort (λ a b, ¬ tuple_lt b a) l.

(** The arguments of the call at line 169, then the call. *)
Definition distance_to (reference_point : point) (post : dict) : result R :=
  latitude ← dict_getitem post "latitude";
  longitude ← dict_getitem post "longitude";
  __haversine reference_point (latitude, longitude).

(** The loop of lines 167 to 173, from position [index] on: every turn
    stores the distance in the post object and appends to [distances]. *)
Fixpoint rank_loop (reference_point : point) (posts : list ref) (index : nat)
    (σ : heap) (distances : list (R * nat))
    : heap * result (list (R * nat)) :=
  match posts with
  | [] => (σ, Ok distances)
  | post :: rest =>
      match distance_to reference_point (σ post) with
      | Err err => (σ, Err err)
      | Ok distance =>
          rank_loop reference_point rest (S index)
            (<[post := <["distance" := VFloat distance]> (σ post)]> σ)
            (distances ++ [(distance, index)])
      end
  end.

(** The condition of the comprehension at line 177,
    [distance and posts[index]["isOnline"]]: the right operand is evaluated
    only when the distance is truthy. *)
Definition keeps (σ : heap) (posts : list ref) (distance : R) (index : nat)
    : result bool :=
  if truthy (VFloat distance) then
    post ← list_getitem posts index;
    is_online ← dict_getitem (σ post) "isOnline";
    Ok (truthy is_online)
  else Ok false.

(** The comprehension of line 177. *)
Fixpoint select_posts (σ : heap) (posts : list ref)
    (distances : list (R * nat)) : result (list ref) :=
  match distances with
  | [] => Ok []
  | (distance, index) :: rest =>
      keep ← keeps σ posts distance index;
      if keep : bool then
        post ← list_getitem posts index;
        selected ← select_posts σ posts rest;
        Ok (post :: selected)
      else select_posts σ posts rest
  end.

(** The [try] block (lines 165 to 177). *)
Definition sort_posts_body (σ : heap) (posts : list ref)
    (reference_point : point) : heap * result (list ref) :=
  match rank_loop reference_point posts 0 σ [] with
  | (σ', Err err) => (σ', Err err)
  | (σ', Ok distances) => (σ', select_posts σ' posts (list_sort distances))
  end.

(** The [except] clauses (lines 179 to 188); [data] is [posts] as the heap
    has it when the exception is raised. *)
Definition sort_posts_except (data : list dict) (err : exn) : exn :=
  if is_DistanceException err then err
  else if is_builtin [AttributeError; KeyError] err then SortPostsError data
  else err.

(** The heap the call leaves behind, and what it returns or raises. *)
Definition sort_posts_in_order_of_increasing_distance (σ : heap)
    (posts : list ref) (reference_point : point)
    : heap * result (list ref) :=
  match sort_posts_body σ posts reference_point with
  | (σ', Ok ranked) => (σ', Ok ranked)
  | (σ', Err err) => (σ', Err (sort_posts_except (σ' <$> posts) err))
  end.

(** ** Measurements: [LightAirQ.get_last_measurement_from_post] *)

(** A [datetime] is the count of microseconds since the first instant the
    type can hold; [t.minute] and [t.replace(minute=, second=,
    microsecond=)] in that representation. *)
Definition datetime_minute (t : Z) : Z := ((t `div` 60000000) `mod` 60)%Z.

Definition datetime_replace (t minute second microsecond : Z) : Z :=
  (t - t `mod` 3600000000
   + minute * 60000000 + second * 1000000 + microsecond)%Z.

(** Lines 200 to 202: the lower bound of the query, from the clock. *)
Definition date__gt (utcnow : Z) : Z :=
  (datetime_replace utcnow ((datetime_minute utcnow `div` 5) * 5) 0 0
   - 5 * 60000000)%Z.

(** The keyword arguments of the request (lines 206 to 210). *)
Definition measurement_params (post_id : Z) (utcnow : Z) : params :=
  [("ids", PInt post_id);
   ("interval", PStr "5m");
   ("date__gt", PDatetime (date__gt utcnow));
   ("limit", PInt 2);
   ("measure_scheme", PStr "c_mmhg_mg")].

(** [measurements] after its last sample, an object inside it, has been
    changed in place. *)
Definition store_last (measurements : value) (sample : value) : value :=
  match measurements with
  | VDict m =>
      match m !! "data" with
      | Some (VList l) =>
          VDict (<["data" := VList (removelast l ++ [sample])]> m)
      | _ => measurements
      end
  | _ => measurements
  end.

Section fetcher.

(** [format v] is the text an f-string field [{v}] renders, [str(v)]. *)
Variable format : value → string.

(** One turn of the loop of lines 219 to 221, on the item
    [(dict_key, dict_value)]; the accumulator is the sample as the earlier
    turns left it, and the exception raised so far, if any. *)
Definition annotate (measurements_units : value) (dict_key : string)
    (dict_value : value) (acc : dict * option exn) : dict * option exn :=
  match acc with
  | (_, Some _) => acc
  | (measurements_data, None) =>
      match contains measurements_units dict_key with
      | Err err => (measurements_data, Some err)
      | Ok false => (measurements_data, None)
      | Ok true =>
          match getitem measurements_units dict_key with
          | Err err => (measurements_data, Some err)
          | Ok unit =>
              (<[dict_key :=
                   VStr (format dict_value ++ " " ++ format unit)%string]>
                 measurements_data,
               None)
          end
      end
  end.

(** Lines 213 to 223: [measurements] as the lines leave it, and the sample
    returned or the exception raised. *)
Definition reshape (measurements : value) : value * result value :=
  match meta ← getitem measurements "meta"; getitem meta "units" with
  | Err err => (measurements, Err err)
  | Ok measurements_units =>
  match data ← getitem measurements "data"; getitem_last data with
  | Err err => (measurements, Err err)
  | Ok measurements_data =>
  match pop measurements_data "aqi" with
  | Err err => (measurements, Err err)
  | Ok (aqi, popped) =>
  match cityair ← getitem aqi "cityairAqi"; getitem cityair "value" with
  | Err err => (store_last measurements (VDict popped), Err err)
  | Ok aqi_value =>
      let renamed := <["cityairAqi" := aqi_value]> popped in
      match map_fold (annotate measurements_units) (renamed, None) renamed with
      | (annotated, Some err) =>
          (store_last measurements (VDict annotated), Err err)
      | (annotated, None) =>
          (store_last measurements (VDict annotated), Ok (VDict annotated))
      end
  end end end end.

(** The [except] clauses (lines 225 to 234); [measurements] is unbound when
    the request itself raised. *)
Definition get_last_measurement_except (measurements : option value)
    (err : exn) : exn :=
  if is_RequestException err then err
  else if is_builtin [AttributeError; IndexError; KeyError] err then
    match measurements with
    | Some data => GetMeasurementError data
    | None => Builtin UnboundLocalError
    end
  else err.

(** [utcnow] is what [datetime.utcnow()] returns during the call. *)
Definition get_last_measurement_from_post (self : LightAirQ) (utcnow : Z)
    (post_id : Z) : result value :=
  match __make_request self MEASUREMENTS_URL
          (measurement_params post_id utcnow) with
  | Err err => Err (get_last_measurement_except None err)
  | Ok measurements =>
      match reshape measurements with
      | (_, Ok measurements_data) => Ok measurements_data
      | (measurements', Err err) =>
          Err (get_last_measurement_except (Some measurements') err)
      end
  end.

End fetcher.

(** ** Notions used in the statements, and sample inputs *)

(** *** Distance

    The value of [hav] at line 63, on angles in radians. *)
Definition hav_of (latitude1 longitude1 latitude2 longitude2 : R) : R :=
  (math_pow (sin ((latitude2 - latitude1) / 2)) 2
   + cos latitude1 * cos latitude2
     * math_pow (sin ((longitude2 - longitude1) / 2)) 2)%R.





(** *** Ranking

    The post object after line 171 has run on it. *)
Definition stamp (reference_point : point) (post : dict) : dict :=
  match distance_to reference_point post with
  | Ok distance => <["distance" := VFloat distance]> post
  | Err _ => post
  end.

(** The heap once the loop has run on the posts of [done]. *)
Definition stamped (reference_point : point) (σ : heap) (done : list ref)
    : heap :=
  λ p, if decide (p ∈ done) then stamp reference_point (σ p) else σ p.

(** How many turns of the loop complete: the position of the first post
    whose distance cannot be computed, or the length of [posts]. *)
Fixpoint processed (reference_point : point) (σ : heap) (posts : list ref)
    : nat :=
  match posts with
  | [] => 0
  | post :: rest =>
      match distance_to reference_point (σ post) with
      | Ok _ => S (processed reference_point σ rest)
      | Err _ => 0
      end
  end.

(** The distance line 169 computes for a post, 0 where it raises. *)
Definition km (reference_point : point) (post : dict) : R :=
  match distance_to reference_point post with
  | Ok distance => distance
  | Err _ => 0%R
  end.

(** Whether the comprehension keeps a pair: its condition, where it does not
    raise. *)
Definition kept (σ : heap) (posts : list ref) (pair : R * nat) : bool :=
  match keeps σ posts pair.1 pair.2 with
  | Ok keep => keep
  | Err _ => false
  end.

(** The two posts of the scenario in the specification, as the server sends
    them and as [get_available_posts] returns them. *)
Definition raw_post_1 : dict :=
  list_to_map
    [("id", VInt 1);
     ("geo", VDict (list_to_map [("latitude", VInt 10);
                                 ("longitude", VInt 10)]));
     ("isOnline", VBool true)].

Definition raw_post_2 : dict :=
  list_to_map
    [("id", VInt 2);
     ("geo", VDict (list_to_map [("latitude", VInt 0);
                                 ("longitude", VInt 0)]));
     ("isOnline", VBool true)].

Definition post_1 : dict :=
  list_to_map
    [("id", VInt 1); ("latitude", VInt 10); ("longitude", VInt 10);
     ("isOnline", VBool true)].

Definition post_2 : dict :=
  list_to_map
    [("id", VInt 2); ("latitude", VInt 0); ("longitude", VInt 0);
     ("isOnline", VBool true)].

(** The two post objects, at references 0 and 1. *)
Definition scenario_heap : heap :=
  λ p, match p with 0 => post_1 | 1 => post_2 | _ => ∅ end.

(** The reference point of the scenario. *)
Definition origin : point := (VInt 0, VInt 0).

(** The distance from the origin to the post at (10, 10). *)
Definition km_post_1 : R :=
  (6371 * 2
   * asin (sqrt (hav_of (0 * (PI / 180)) (0 * (PI / 180))
                        (10 * (PI / 180)) (10 * (PI / 180)))))%R.

(** *** Transport

    A client whose every request gets the response [r]. *)
Definition client_answering (r : requests.Response) : LightAirQ :=
  __init__ (λ _ _ _ _, inr r) "token" DEFAULT_HOST TIMEOUT.

(** Three responses: a page that is not JSON, a redirection with a JSON
    body, and a server error. *)
Definition response_not_json : requests.Response :=
  {| requests.status_code := 200;
     requests.text := "<html>Bad gateway</html>";
     requests.json := None |}.

Definition response_300 : requests.Response :=
  {| requests.status_code := 300;
     requests.text := "[1]";
     requests.json := Some (VList [VInt 1]) |}.

Definition response_500 : requests.Response :=
  {| requests.status_code := 500;
     requests.text := "Internal Server Error";
     requests.json := None |}.

(** The url [__make_request] builds at line 94. *)
Definition url_of (self : LightAirQ) (method_url : string) : string :=
  (host_url self ++ "/" ++ method_url)%string.

(** Whether an outcome is a raised [DecodingError]. *)
Definition raises_DecodingError (r : result value) : bool :=
  match r with
  | Err (DecodingError _ _ _ _) => true
  | _ => false
  end.

(** A heap whose posts carry no coordinates. *)
Definition unlocated_heap : heap :=
  λ _, list_to_map [("id", VInt 7); ("isOnline", VBool true)].

(** *** Catalog and measurements

    A post whose [geo] object has a key [geo] of its own. *)
Definition post_with_geo_in_geo : dict :=
  list_to_map [("id", VInt 3); ("geo", VDict (list_to_map [("geo", VInt 1)]))].

(** The text an f-string renders for a string, an int, [None] and a bool,
    and a placeholder for any other value, whose rendering is not described;
    used only where a sample input needs some [format], at strings and
    ints. *)
Definition format_plain (v : value) : string :=
  match v with
  | VStr s => s
  | VInt n => pretty n
  | VNone => "None"
  | VBool true => "True"
  | VBool false => "False"
  | _ => "?"
  end.

(** The sample after lines 217 to 221 have run, as a function of the sample
    taken from the response, the value under [aqi.cityairAqi.value] and the
    units. *)
Definition annotated (format : value → string) (units sample : dict)
    (aqi_value : value) (key : string) : option value :=
  match (<["cityairAqi" := aqi_value]> (delete "aqi" sample)) !! key with
  | None => None
  | Some x =>
      match units !! key with
      | Some unit => Some (VStr (format x ++ " " ++ format unit)%string)
      | None => Some x
      end
  end.

(** A measurements response with two samples. *)
Definition sample_measurements : value :=
  VDict (list_to_map
    [("meta",
      VDict (list_to_map
        [("units",
          VDict (list_to_map [("temperature", VStr "C"); ("pm25", VStr "mg")]))]));
     ("data",
      VList
        [VDict (list_to_map
           [("date", VStr "2022-05-01T10:00:00Z"); ("temperature", VInt 20);
            ("aqi", VDict (list_to_map
               [("cityairAqi", VDict (list_to_map [("value", VInt 2)]))]))]);
         VDict (list_to_map
           [("date", VStr "2022-05-01T10:05:00Z"); ("temperature", VInt 21);
            ("pm25", VInt 4);
            ("aqi", VDict (list_to_map
               [("cityairAqi", VDict (list_to_map [("value", VInt 3)]))]))])])]).

Definition response_measurements : requests.Response :=
  {| requests.status_code := 200;
     requests.text := "(the text of sample_measurements)";
     requests.json := Some sample_measurements |}.

(** *** Further sample inputs

    A client whose every request fails in the session with [err]. *)
Definition client_failing (err : requests.exception) : LightAirQ :=
  __init__ (λ _ _ _ _, inl err) "token" DEFAULT_HOST TIMEOUT.

(** [flattens_to raw post]: [raw] is an object with an object under [geo],
    and [post] is [raw] without [geo] and with the items of [geo] stored
    over it. *)
Definition flattens_to (raw post : value) : Prop :=
  ∃ d items : dict,
    raw = VDict d ∧ d !! "geo" = Some (VDict items)
    ∧ post = VDict (items ∪ delete "geo" d).

(** A client that answers the posts request with the JSON document
    [posts]. *)
Definition client_with_posts (posts : value) : LightAirQ :=
  client_answering
    {| requests.status_code := 200;
       requests.text := "(the text of the posts)";
       requests.json := Some posts |}.

(** A post without [geo]. *)
Definition post_without_geo : dict :=
  list_to_map [("id", VInt 9); ("isOnline", VBool false)].



(** Whether a value is a JSON object. *)
Definition is_VDict (v : value) : bool :=
  match v with VDict _ => true | _ => false end.

(** A measurements document that lacks a part the reshaping reads before it
    changes anything: [meta], [meta.units], [data], a last sample, or the
    [aqi] of the last sample. *)
Inductive incomplete (measurements : dict) : Prop :=
| no_meta :
    measurements !! "meta" = None → incomplete measurements
| no_units (meta : dict) :
    measurements !! "meta" = Some (VDict meta) →
    meta !! "units" = None → incomplete measurements
| no_data (meta : dict) :
    measurements !! "meta" = Some (VDict meta) →
    is_Some (meta !! "units") →
    measurements !! "data" = None → incomplete measurements
| no_sample (meta : dict) :
    measurements !! "meta" = Some (VDict meta) →
    is_Some (meta !! "units") →
    measurements !! "data" = Some (VList []) → incomplete measurements
| no_aqi (meta sample : dict) (data : list value) :
    measurements !! "meta" = Some (VDict meta) →
    is_Some (meta !! "units") →
    measurements !! "data" = Some (VList data) →
    last data = Some (VDict sample) →
    sample !! "aqi" = None → incomplete measurements.

(** A client that answers every request with the JSON document [body]. *)
Definition client_with_json (body : value) : LightAirQ :=
  client_answering
    {| requests.status_code := 200;
       requests.text := "(the text of the document)";
       requests.json := Some body |}.

(** A measurements document without [data], and one whose last sample has
    an [aqi] without [cityairAqi]. *)
Definition measurements_without_data : dict :=
  list_to_map
    [("meta", VDict (list_to_map [("units", VDict ∅)]))].

Definition measurements_without_cityairAqi : dict :=
  list_to_map
    [("meta", VDict (list_to_map [("units", VDict ∅)]));
     ("data", VList [VDict (list_to_map [("pm25", VInt 4);
                                         ("aqi", VDict ∅)])])].

(** * Properties *)

Lemma cos_cos_half (a c : R) :
  (cos a * cos c
   = cos ((a + c) / 2) * cos ((a + c) / 2)
     - sin ((c - a) / 2) * sin ((c - a) / 2))%R.
Proof.
  set (h := ((c - a) / 2)%R). set (m := ((a + c) / 2)%R).
  replace a with (m - h)%R at 1 by (unfold m, h; lra).
  replace c with (m + h)%R at 1 by (unfold m, h; lra).
  rewrite cos_minus, cos_plus.
  pose proof (sin2_cos2 h) as Hh. pose proof (sin2_cos2 m) as Hm.
  unfold Rsqr in Hh, Hm.
  transitivity (cos m * cos m * (cos h * cos h)
                - sin m * sin m * (sin h * sin h))%R; [ring|].
  replace (cos h * cos h)%R with (1 - sin h * sin h)%R by lra.
  replace (sin m * sin m)%R with (1 - cos m * cos m)%R by lra.
  ring.
Qed.

Lemma hav_of_range (a b c d : R) : (0 <= hav_of a b c d <= 1)%R.
Proof.
  unfold hav_of, math_pow. rewrite cos_cos_half.
  pose proof (sin2_cos2 ((c - a) / 2)) as Hh.
  pose proof (sin2_cos2 ((a + c) / 2)) as Hm.
  pose proof (sin2_cos2 ((d - b) / 2)) as Hs.
  unfold Rsqr in Hh, Hm, Hs.
  set (X := sin ((c - a) / 2)) in *. set (Y := cos ((c - a) / 2)) in *.
  set (U := sin ((a + c) / 2)) in *. set (V := cos ((a + c) / 2)) in *.
  set (S := sin ((d - b) / 2)) in *. set (C := cos ((d - b) / 2)) in *.
  replace (X ^ 2 + (V * V - X * X) * S ^ 2)%R
    with (X * X * (C * C) + V * V * (S * S))%R.
  - nra.
  - replace (C * C)%R with (1 - S * S)%R by lra. ring.
Qed.

Lemma haversine_numeric (p1 p2 : point) (a b c d : R) :
  as_float p1.1 = Ok a → as_float p1.2 = Ok b →
  as_float p2.1 = Ok c → as_float p2.2 = Ok d →
  __haversine p1 p2
  = Ok (6371 * 2
        * asin (sqrt (hav_of (a * (PI / 180)) (b * (PI / 180))
                             (c * (PI / 180)) (d * (PI / 180)))))%R.
Proof.
  intros Ha Hb Hc Hd.
  unfold __haversine, haversine_body, radians.
  rewrite Ha, Hb, Hc, Hd. cbn [mbind result_bind].
  match goal with |- context [math_sqrt ?h] =>
    change h with (hav_of (a * (PI / 180)) (b * (PI / 180))
                          (c * (PI / 180)) (d * (PI / 180)));
    pose proof (hav_of_range (a * (PI / 180)) (b * (PI / 180))
                             (c * (PI / 180)) (d * (PI / 180))) as [H0 H1]
  end.
  set (h := hav_of _ _ _ _) in *.
  unfold math_sqrt. destruct (Rlt_dec h 0) as [?|_]; [lra|].
  cbn [mbind result_bind]. unfold math_asin.
  pose proof (sqrt_pos h) as Hs0.
  assert (Hs1 : (sqrt h <= 1)%R).
  { rewrite <- sqrt_1. apply sqrt_le_1_alt. exact H1. }
  destruct (Rlt_dec (sqrt h) (-1)) as [?|_]; [lra|].
  destruct (Rlt_dec 1 (sqrt h)) as [?|_]; [lra|].
  reflexivity.
Qed.



Lemma hav_of_diag (a b : R) : hav_of a b a b = 0%R.
Proof.
  unfold hav_of, math_pow.
  replace ((a - a) / 2)%R with 0%R by lra.
  replace ((b - b) / 2)%R with 0%R by lra.
  rewrite sin_0. ring.
Qed.







Lemma distance_to_insert_distance (rp : point) (post : dict) (v : value) :
  distance_to rp (<["distance" := v]> post) = distance_to rp post.
Proof.
  unfold distance_to, dict_getitem.
  rewrite !lookup_insert_ne by done. reflexivity.
Qed.

Lemma distance_to_stamp (rp : point) (post : dict) :
  distance_to rp (stamp rp post) = distance_to rp post.
Proof.
  unfold stamp. destruct (distance_to rp post) eqn:E; [|exact E].
  rewrite distance_to_insert_distance. exact E.
Qed.

Lemma stamp_idemp (rp : point) (post : dict) :
  stamp rp (stamp rp post) = stamp rp post.
Proof.
  unfold stamp at 1. rewrite distance_to_stamp.
  unfold stamp. destruct (distance_to rp post); [|reflexivity].
  apply insert_insert_eq.
Qed.

Lemma stamped_nil (rp : point) (σ : heap) : stamped rp σ [] = σ.
Proof.
  apply functional_extensionality. intros p. unfold stamped.
  destruct (decide (p ∈ [])) as [H|_]; [|reflexivity].
  by apply elem_of_nil in H.
Qed.

Lemma stamped_cons (rp : point) (σ : heap) (post : ref) (done : list ref)
    (distance : R) :
  distance_to rp (σ post) = Ok distance →
  stamped rp (<[post := <["distance" := VFloat distance]> (σ post)]> σ) done
  = stamped rp σ (post :: done).
Proof.
  intros Hd. apply functional_extensionality. intros p. unfold stamped.
  assert (Hs : stamp rp (σ post) = <["distance" := VFloat distance]> (σ post))
    by (unfold stamp; rewrite Hd; reflexivity).
  destruct (decide (p = post)) as [->|Hne].
  - rewrite fn_lookup_insert, <- Hs.
    destruct (decide (post ∈ post :: done)) as [_|H]; [|set_solver].
    destruct (decide (post ∈ done)); [apply stamp_idemp|reflexivity].
  - rewrite fn_lookup_insert_ne by done.
    destruct (decide (p ∈ done)) as [Hin|Hin],
             (decide (p ∈ post :: done)) as [Hin'|Hin']; try reflexivity.
    + exfalso. apply Hin'. apply elem_of_cons. by right.
    + exfalso. apply elem_of_cons in Hin' as [?|?]; done.
Qed.

Lemma processed_insert (rp : point) (σ : heap) (post : ref) (v : value)
    (posts : list ref) :
  processed rp (<[post := <["distance" := v]> (σ post)]> σ) posts
  = processed rp σ posts.
Proof.
  induction posts as [|p rest IH]; [reflexivity|]. cbn [processed].
  rewrite IH.
  destruct (decide (p = post)) as [->|Hne].
  - rewrite fn_lookup_insert, distance_to_insert_distance. reflexivity.
  - rewrite fn_lookup_insert_ne by done. reflexivity.
Qed.

Lemma km_insert (rp : point) (σ : heap) (post : ref) (v : value) (p : ref) :
  km rp ((<[post := <["distance" := v]> (σ post)]> σ) p) = km rp (σ p).
Proof.
  unfold km. destruct (decide (p = post)) as [->|Hne].
  - rewrite fn_lookup_insert, distance_to_insert_distance. reflexivity.
  - rewrite fn_lookup_insert_ne by done. reflexivity.
Qed.

(** The heap the loop leaves: the posts before the first failure stamped,
    the others untouched. *)
Lemma rank_loop_heap (rp : point) (posts : list ref) (index : nat)
    (σ : heap) (distances : list (R * nat)) :
  (rank_loop rp posts index σ distances).1
  = stamped rp σ (take (processed rp σ posts) posts).
Proof.
  revert index σ distances.
  induction posts as [|post rest IH]; intros index σ distances.
  - cbn. by rewrite stamped_nil.
  - cbn [rank_loop processed].
    destruct (distance_to rp (σ post)) as [distance|err] eqn:Hd.
    + rewrite IH, processed_insert. cbn [take]. by apply stamped_cons.
    + cbn. by rewrite stamped_nil.
Qed.

(** When every turn completes the loop returns the pairs in order. *)
Lemma rank_loop_complete (rp : point) (posts : list ref) (index : nat)
    (σ : heap) (distances : list (R * nat)) :
  processed rp σ posts = length posts →
  (rank_loop rp posts index σ distances).2
  = Ok (distances ++ imap (λ i post, (km rp (σ post), index + i)) posts).
Proof.
  revert index σ distances.
  induction posts as [|post rest IH]; intros index σ distances Hall.
  - cbn. by rewrite app_nil_r.
  - cbn [rank_loop processed] in *.
    destruct (distance_to rp (σ post)) as [distance|err] eqn:Hd; [|done].
    cbn [length] in Hall.
    rewrite IH by (rewrite processed_insert; lia).
    rewrite <- app_assoc. f_equal. f_equal. cbn [app]. rewrite imap_cons.
    f_equal.
    + unfold km. rewrite Hd. f_equal. lia.
    + apply imap_ext. intros i p _. cbn. rewrite km_insert. f_equal. lia.
Qed.

(** Otherwise it raises what the first failing turn raises. *)
Lemma rank_loop_fails (rp : point) (posts : list ref) (index : nat)
    (σ : heap) (distances : list (R * nat)) :
  processed rp σ posts < length posts →
  ∃ (post : ref) (err : exn),
    posts !! processed rp σ posts = Some post
    ∧ distance_to rp (σ post) = Err err
    ∧ (rank_loop rp posts index σ distances).2 = Err err.
Proof.
  revert index σ distances.
  induction posts as [|post rest IH]; intros index σ distances Hlt.
  - cbn in Hlt. lia.
  - cbn [rank_loop processed] in *.
    destruct (distance_to rp (σ post)) as [distance|err] eqn:Hd.
    + cbn [length] in Hlt.
      destruct (IH (S index)
                  (<[post := <["distance" := VFloat distance]> (σ post)]> σ)
                  (distances ++ [(distance, index)])) as (p & err & Hp & He & Hr).
      { rewrite processed_insert. lia. }
      rewrite processed_insert in Hp. exists p, err. split; [exact Hp|].
      split; [|exact Hr].
      destruct (decide (p = post)) as [->|Hne].
      * rewrite fn_lookup_insert, distance_to_insert_distance in He. congruence.
      * by rewrite fn_lookup_insert_ne in He.
    + exists post, err. done.
Qed.

Lemma processed_le (rp : point) (σ : heap) (posts : list ref) :
  processed rp σ posts ≤ length posts.
Proof.
  induction posts as [|p rest IH]; cbn; [lia|].
  destruct (distance_to rp (σ p)); lia.
Qed.

Lemma processed_before (rp : point) (σ : heap) (posts : list ref) (i : nat)
    (post : ref) :
  i < processed rp σ posts → posts !! i = Some post →
  distance_to rp (σ post) = Ok (km rp (σ post)).
Proof.
  revert i. induction posts as [|p rest IH]; intros i Hi Hp; [cbn in Hi; lia|].
  cbn [processed] in Hi.
  destruct (distance_to rp (σ p)) as [d|] eqn:Hd; [|lia].
  destruct i as [|i]; cbn in Hp.
  - injection Hp as <-. unfold km. by rewrite Hd.
  - apply (IH i); [lia|done].
Qed.

(** *** Sorting *)

#[local] Instance tuple_le_total : Total (λ a b : R * nat, ¬ tuple_lt b a).
Proof.
  intros [x i] [y j]. unfold tuple_lt. cbn.
  destruct (Rtotal_order x y) as [H|[H|H]].
  - left. intros [?|[? ?]]; lra.
  - destruct (decide (i ≤ j)).
    + left. intros [?|[? ?]]; [lra|lia].
    + right. intros [?|[? ?]]; [lra|lia].
  - right. intros [?|[? ?]]; lra.
Qed.

#[local] Instance tuple_le_trans : Transitive (λ a b : R * nat, ¬ tuple_lt b a).
Proof.
  intros [x i] [y j] [z k]. unfold tuple_lt. cbn. intros Hxy Hyz Hzx.
  destruct (Rtotal_order x y) as [H|[H|H]].
  - destruct (Rtotal_order y z) as [H'|[H'|H']].
    + destruct Hzx as [?|[? ?]]; lra.
    + destruct Hzx as [?|[? ?]]; lra.
    + apply Hyz. by left.
  - subst y. destruct (decide (j < i)); [apply Hxy; by right|].
    destruct (Rtotal_order x z) as [H'|[H'|H']].
    + destruct Hzx as [?|[? ?]]; lra.
    + subst z. destruct (decide (k < j)); [apply Hyz; by right|].
      destruct Hzx as [?|[? ?]]; [lra|lia].
    + apply Hyz. by left.
  - apply Hxy. by left.
Qed.

Lemma tuple_le_distinct (a b : R * nat) :
  ¬ tuple_lt b a → a.2 ≠ b.2 → tuple_lt a b.
Proof.
  destruct a as [x i], b as [y j]. unfold tuple_lt. cbn. intros Hle Hne.
  destruct (Rtotal_order x y) as [H|[H|H]].
  - by left.
  - right. split; [done|]. destruct (decide (i < j)); [done|].
    exfalso. apply Hle. right. split; [done|lia].
  - exfalso. apply Hle. by left.
Qed.

(** Sorted without ties in the indices is strictly increasing. *)
Lemma strictly_sorted (l : list (R * nat)) :
  StronglySorted (λ a b, ¬ tuple_lt b a) l → NoDup l.*2 →
  StronglySorted tuple_lt l.
Proof.
  induction 1 as [|a l Hl IH Ha]; intros Hnd; [constructor|].
  rewrite fmap_cons in Hnd. apply NoDup_cons in Hnd as [Hnotin Hnd].
  constructor; [by apply IH|].
  rewrite Forall_forall in Ha |- *. intros b Hb.
  apply tuple_le_distinct; [by apply Ha|].
  intros Heq. apply Hnotin. rewrite Heq.
  apply list_elem_of_fmap. by exists b.
Qed.

(** Over real distances [list.sort()] leaves the pairs strictly increasing,
    the indices being all different. *)
Lemma list_sort_strictly_sorted (l : list (R * nat)) :
  NoDup l.*2 → StronglySorted tuple_lt (list_sort l).
Proof.
  intros Hnd. apply strictly_sorted.
  - apply (StronglySorted_merge_sort _).
  - unfold list_sort. by rewrite merge_sort_Permutation.
Qed.

Lemma elem_of_list_sort (l : list (R * nat)) (pair : R * nat) :
  pair ∈ list_sort l ↔ pair ∈ l.
Proof. unfold list_sort. by rewrite merge_sort_Permutation. Qed.

(** The comprehension, when it raises nothing, is the filter by [kept]. *)
Lemma select_posts_returns (σ : heap) (posts : list ref)
    (distances : list (R * nat)) (ranked : list ref) :
  select_posts σ posts distances = Ok ranked →
  Forall2 (λ (post : ref) (pair : R * nat), posts !! pair.2 = Some post)
    ranked (filter (λ pair, kept σ posts pair = true) distances).
Proof.
  revert ranked.
  induction distances as [|[distance index] rest IH]; intros ranked.
  - intros [= <-]. constructor.
  - cbn [select_posts]. rewrite filter_cons.
    assert (Hk : kept σ posts (distance, index)
                 = match keeps σ posts distance index with
                   | Ok keep => keep
                   | Err _ => false
                   end) by reflexivity.
    destruct (keeps σ posts distance index) as [[]|err];
      cbn [mbind result_bind].
    + unfold list_getitem.
      destruct (posts !! index) as [post|] eqn:Hp; [|done].
      cbn [mbind result_bind].
      destruct (select_posts σ posts rest) as [selected|] eqn:Hs; [|done].
      cbn [mbind result_bind]. intros [= <-].
      rewrite decide_True by done. constructor; [done|by apply IH].
    + rewrite decide_False by (rewrite Hk; done). apply IH.
    + done.
Qed.

Lemma kept_true (σ : heap) (posts : list ref) (distance : R) (index : nat) :
  kept σ posts (distance, index) = true ↔
  distance ≠ 0%R
  ∧ ∃ (post : ref) (is_online : value),
      posts !! index = Some post
      ∧ σ post !! "isOnline" = Some is_online
      ∧ truthy is_online = true.
Proof.
  unfold kept, keeps, list_getitem, dict_getitem. cbn [fst snd truthy].
  destruct (Req_dec_T distance 0) as [->|Hne].
  - split; [done|]. by intros [? _].
  - destruct (posts !! index) as [post|] eqn:Hp; cbn [mbind result_bind].
    + destruct (σ post !! "isOnline") as [v|] eqn:Hv; cbn [mbind result_bind].
      * split; [intros Ht; split; [done|]; exists post, v; auto|].
        intros (_ & p & w & [= <-] & Hw & Ht). congruence.
      * split; [done|].
        intros (_ & p & w & [= <-] & Hw & _). congruence.
    + split; [done|]. by intros (_ & ? & ? & ? & _).
Qed.

(** *** The call as a whole *)

Lemma stamp_lookup_ne (rp : point) (post : dict) (key : string) :
  key ≠ "distance" → stamp rp post !! key = post !! key.
Proof.
  intros Hne. unfold stamp. destruct (distance_to rp post); [|done].
  by rewrite lookup_insert_ne.
Qed.

Lemma stamp_lookup_distance (rp : point) (post : dict) (distance : R) :
  distance_to rp post = Ok distance →
  stamp rp post !! "distance" = Some (VFloat distance).
Proof. intros Hd. unfold stamp. rewrite Hd. apply lookup_insert_eq. Qed.

Lemma stamped_lookup_ne (rp : point) (σ : heap) (done : list ref) (p : ref)
    (key : string) :
  key ≠ "distance" → stamped rp σ done p !! key = σ p !! key.
Proof.
  intros Hne. unfold stamped. destruct (decide (p ∈ done)); [|done].
  by apply stamp_lookup_ne.
Qed.

Lemma sort_posts_heap (σ : heap) (posts : list ref) (rp : point) :
  (sort_posts_in_order_of_increasing_distance σ posts rp).1
  = stamped rp σ (take (processed rp σ posts) posts).
Proof.
  unfold sort_posts_in_order_of_increasing_distance, sort_posts_body.
  rewrite <- (rank_loop_heap rp posts 0 σ []).
  destruct (rank_loop rp posts 0 σ []) as [σ' [distances|err]]; cbn [fst].
  - by destruct (select_posts σ' posts (list_sort distances)).
  - done.
Qed.

(** The outcome when every distance can be computed. *)
Lemma sort_posts_complete (σ : heap) (posts : list ref) (rp : point) :
  processed rp σ posts = length posts →
  (sort_posts_in_order_of_increasing_distance σ posts rp).2
  = match select_posts (stamped rp σ posts) posts
            (list_sort (imap (λ i post, (km rp (σ post), i)) posts)) with
    | Ok ranked => Ok ranked
    | Err err =>
        Err (sort_posts_except (stamped rp σ posts <$> posts) err)
    end.
Proof.
  intros Hall.
  pose proof (rank_loop_heap rp posts 0 σ []) as Hheap.
  pose proof (rank_loop_complete rp posts 0 σ [] Hall) as Hout.
  rewrite Hall, firstn_all in Hheap.
  unfold sort_posts_in_order_of_increasing_distance, sort_posts_body.
  destruct (rank_loop rp posts 0 σ []) as [σ' r]. cbn [fst snd] in *.
  subst σ' r. cbn [app].
  by destruct (select_posts _ posts _).
Qed.

(** The outcome when some distance cannot be computed. *)
Lemma sort_posts_incomplete (σ : heap) (posts : list ref) (rp : point) :
  processed rp σ posts < length posts →
  ∃ (post : ref) (err : exn),
    posts !! processed rp σ posts = Some post
    ∧ distance_to rp (σ post) = Err err
    ∧ (sort_posts_in_order_of_increasing_distance σ posts rp).2
      = Err (sort_posts_except
               (stamped rp σ (take (processed rp σ posts) posts) <$> posts)
               err).
Proof.
  intros Hlt.
  destruct (rank_loop_fails rp posts 0 σ [] Hlt) as (post & err & Hp & Hd & Hr).
  exists post, err. split; [done|]. split; [done|].
  pose proof (rank_loop_heap rp posts 0 σ []) as Hheap.
  unfold sort_posts_in_order_of_increasing_distance, sort_posts_body.
  destruct (rank_loop rp posts 0 σ []) as [σ' r]. cbn [fst snd] in *.
  by subst σ' r.
Qed.

Lemma sort_posts_returns (σ σ' : heap) (posts ranked : list ref)
    (rp : point) :
  sort_posts_in_order_of_increasing_distance σ posts rp = (σ', Ok ranked) →
  processed rp σ posts = length posts
  ∧ σ' = stamped rp σ posts
  ∧ select_posts σ' posts
      (list_sort (imap (λ i post, (km rp (σ post), i)) posts))
    = Ok ranked.
Proof.
  intros Hsort.
  pose proof (processed_le rp σ posts) as Hle.
  destruct (decide (processed rp σ posts = length posts)) as [Hall|Hne].
  - split; [done|].
    pose proof (sort_posts_heap σ posts rp) as Hheap.
    pose proof (sort_posts_complete σ posts rp Hall) as Hout.
    rewrite Hsort in Hheap, Hout. cbn [fst snd] in *.
    rewrite Hall, firstn_all in Hheap. subst σ'. split; [done|].
    by destruct (select_posts _ posts _).
  - destruct (sort_posts_incomplete σ posts rp) as (? & ? & _ & _ & Hr);
      [lia|].
    rewrite Hsort in Hr. done.
Qed.

Lemma imap_indices {A B : Type} (f : A → B) (l : list A) (n : nat) :
  (imap (λ i x, (f x, n + i)) l).*2 = seq n (length l).
Proof.
  revert n. induction l as [|x l IH]; intros n; [done|].
  rewrite imap_cons. cbn. f_equal; [lia|].
  rewrite <- IH. f_equal. apply imap_ext. intros i y _. cbn. f_equal. lia.
Qed.

Lemma stamped_lookup_distance (rp : point) (σ : heap) (posts : list ref)
    (post : ref) (distance : R) :
  post ∈ posts → distance_to rp (σ post) = Ok distance →
  stamped rp σ posts post !! "distance" = Some (VFloat distance).
Proof.
  intros Hin Hd. unfold stamped. rewrite decide_True by done.
  by apply stamp_lookup_distance.
Qed.

#[local] Instance tuple_le_antisymm :
  AntiSymm (=) (λ a b : R * nat, ¬ tuple_lt b a).
Proof.
  intros [x i] [y j]. unfold tuple_lt. cbn. intros Hxy Hyx.
  destruct (Rtotal_order x y) as [H|[H|H]].
  - exfalso. apply Hyx. by left.
  - subst y. f_equal. destruct (decide (i = j)) as [|Hne]; [done|].
    exfalso. destruct (decide (i < j)).
    + apply Hyx. by right.
    + apply Hxy. right. split; [done|lia].
  - exfalso. apply Hxy. by left.
Qed.

(** [list.sort()] returns the one strictly increasing arrangement. *)
Lemma list_sort_unique (l sorted : list (R * nat)) :
  StronglySorted tuple_lt sorted → sorted ≡ₚ l → list_sort l = sorted.
Proof.
  intros Hsorted Hperm.
  apply (StronglySorted_unique (λ a b, ¬ tuple_lt b a)).
  - apply (StronglySorted_merge_sort _).
  - eapply Sorted.StronglySorted_ind with (R := tuple_lt);
      [constructor| |exact Hsorted].
    intros a k _ IH Ha. constructor; [exact IH|].
    eapply Forall_impl; [exact Ha|].
    intros [y j]. destruct a as [x i]. unfold tuple_lt. cbn.
    intros [?|[? ?]] [?|[? ?]]; try lra; lia.
  - unfold list_sort. by rewrite merge_sort_Permutation.
Qed.

(** *** The scenario of the specification *)

Lemma scenario_is_flattened :
  flatten_response (VList [VDict raw_post_1; VDict raw_post_2])
  = (VList [VDict post_1; VDict post_2], None).
Proof. reflexivity. Qed.

Lemma distance_to_post_1 : distance_to origin post_1 = Ok km_post_1.
Proof.
  unfold distance_to, dict_getitem.
  change (post_1 !! "latitude") with (Some (VInt 10)).
  change (post_1 !! "longitude") with (Some (VInt 10)).
  cbn [mbind result_bind].
  apply (haversine_numeric origin (VInt 10, VInt 10) 0 0 10 10); reflexivity.
Qed.

Lemma distance_to_post_2 : distance_to origin post_2 = Ok 0%R.
Proof.
  unfold distance_to, dict_getitem.
  change (post_2 !! "latitude") with (Some (VInt 0)).
  change (post_2 !! "longitude") with (Some (VInt 0)).
  cbn [mbind result_bind].
  rewrite (haversine_numeric origin (VInt 0, VInt 0) 0 0 0 0) by reflexivity.
  rewrite hav_of_diag, sqrt_0, asin_0. f_equal. ring.
Qed.

Lemma asin_pos (x : R) : (0 < x <= 1)%R → (0 < asin x)%R.
Proof.
  intros [H0 H1].
  destruct (Rlt_le_dec 0 (asin x)) as [?|Hle]; [done|exfalso].
  pose proof (asin_bound x) as [Hlo _].
  assert (Hs : (sin (asin x) <= 0)%R).
  { replace (asin x) with (- - asin x)%R by ring. rewrite sin_neg.
    assert (0 <= sin (- asin x))%R; [|lra].
    apply sin_ge_0; pose proof PI_RGT_0; lra. }
  rewrite sin_asin in Hs by lra. lra.
Qed.

Lemma km_post_1_pos : (0 < km_post_1)%R.
Proof.
  unfold km_post_1.
  pose proof (hav_of_range (0 * (PI / 180)) (0 * (PI / 180))
                (10 * (PI / 180)) (10 * (PI / 180))) as [_ H1].
  assert (H0 : (0 < hav_of (0 * (PI / 180)) (0 * (PI / 180))
                      (10 * (PI / 180)) (10 * (PI / 180)))%R).
  { unfold hav_of, math_pow.
    replace ((10 * (PI / 180) - 0 * (PI / 180)) / 2)%R with (PI / 36)%R by lra.
    replace (0 * (PI / 180))%R with 0%R by lra. rewrite cos_0.
    pose proof PI_RGT_0 as Hpi.
    assert (Hs : (0 < sin (PI / 36))%R) by (apply sin_gt_0; lra).
    assert (Hc : (0 < cos (10 * (PI / 180)))%R)
      by (apply cos_gt_0; lra).
    nra. }
  set (h := hav_of _ _ _ _) in *.
  assert (0 < asin (sqrt h))%R; [|lra].
  apply asin_pos. split; [by apply sqrt_lt_R0|].
  rewrite <- sqrt_1. by apply sqrt_le_1_alt.
Qed.

Lemma scenario_sorted :
  list_sort [(km_post_1, 0); (0%R, 1)] = [(0%R, 1); (km_post_1, 0)].
Proof.
  pose proof km_post_1_pos.
  apply list_sort_unique.
  - repeat constructor. cbn. lra.
  - apply Permutation_swap.
Qed.

Lemma scenario_processed : processed origin scenario_heap [0; 1] = 2.
Proof.
  assert (H0 : scenario_heap 0 = post_1) by reflexivity.
  assert (H1 : scenario_heap 1 = post_2) by reflexivity.
  cbn [processed].
  by rewrite H0, distance_to_post_1, H1, distance_to_post_2.
Qed.

(** What the call does in the scenario: both posts get their distance, and
    only the post at reference 0 (the one with id 1) is returned. *)
Lemma scenario_outcome :
  sort_posts_in_order_of_increasing_distance scenario_heap [0; 1] origin
  = (stamped origin scenario_heap [0; 1], Ok [0]).
Proof.
  assert (H0 : scenario_heap 0 = post_1) by reflexivity.
  assert (H1 : scenario_heap 1 = post_2) by reflexivity.
  pose proof scenario_processed as Hall.
  pose proof (sort_posts_heap scenario_heap [0; 1] origin) as Hheap.
  pose proof (sort_posts_complete scenario_heap [0; 1] origin Hall) as Hout.
  rewrite Hall in Hheap. cbn [take] in Hheap.
  destruct (sort_posts_in_order_of_increasing_distance _ _ _) as [σ' r].
  cbn [fst snd] in *. subst σ'. f_equal. rewrite Hout. clear Hout.
  change (imap (λ i post, (km origin (scenario_heap post), i)) [0; 1])
    with [(km origin (scenario_heap 0), 0); (km origin (scenario_heap 1), 1)].
  unfold km.
  rewrite H0, H1, distance_to_post_1, distance_to_post_2, scenario_sorted.
  pose proof km_post_1_pos as Hpos.
  cbn [select_posts]. unfold keeps. cbn [truthy].
  destruct (Req_dec_T 0 0) as [_|?]; [|done].
  destruct (Req_dec_T km_post_1 0) as [?|_]; [lra|].
  cbn [mbind result_bind]. unfold list_getitem. cbn [lookup list_lookup].
  cbn [mbind result_bind]. unfold dict_getitem.
  rewrite stamped_lookup_ne, H0 by done.
  change (post_1 !! "isOnline") with (Some (VBool true)).
  reflexivity.
Qed.

(** What [__make_request] does, by cases on what the session answers. *)
Lemma make_request_cases (self : LightAirQ) (method_url : string)
    (kwargs : params) :
  __make_request self method_url kwargs =
  match session_get self (url_of self method_url) kwargs (timeout self) with
  | inl requests.HTTPError => Err (Builtin UnboundLocalError)
  | inl _ => Err (SendRequestError kwargs (url_of self method_url))
  | inr response =>
      if requests.raise_for_status response then
        Err (StatusCodeError kwargs (url_of self method_url)
               (requests.status_code response) (requests.text response))
      else
        match requests.json response with
        | None => Err (SendRequestError kwargs (url_of self method_url))
        | Some response_json =>
            if truthy response_json then Ok response_json
            else Err (StatusCodeError kwargs (url_of self method_url)
                        (requests.status_code response)
                        (requests.text response))
        end
  end.
Proof.
  unfold __make_request, make_request_body, url_of.
  destruct (session_get self _ kwargs _) as [[]|response]; try reflexivity.
  destruct (requests.raise_for_status response); [reflexivity|].
  destruct (requests.json response) as [j|]; [|reflexivity].
  destruct (truthy j); reflexivity.
Qed.

(** [__make_request] raises nothing that the callers' clauses for
    [TypeError], [AttributeError], [IndexError] or [KeyError] would catch. *)
Lemma make_request_raises (self : LightAirQ) (method_url : string)
    (kwargs : params) (err : exn) :
  __make_request self method_url kwargs = Err err →
  is_RequestException err = true ∨ err = Builtin UnboundLocalError.
Proof.
  rewrite make_request_cases.
  destruct (session_get self _ kwargs _) as [[]|response];
    try (intros [= <-]; auto).
  destruct (requests.raise_for_status response); [intros [= <-]; auto|].
  destruct (requests.json response) as [j|]; [|intros [= <-]; auto].
  destruct (truthy j); [discriminate|intros [= <-]; auto].
Qed.

(** C3, on the code: a response with a successful status whose body is not
    JSON makes [__make_request] raise [SendRequestError], not
    [DecodingError]: [requests.JSONDecodeError] is a
    [requests.RequestException], and the clause for that class comes
    first. *)
Theorem non_json_body_raises_SendRequestError (self : LightAirQ)
    (method_url : string) (kwargs : params) (response : requests.Response) :
  session_get self (url_of self method_url) kwargs (timeout self)
  = inr response →
  requests.raise_for_status response = false →
  requests.json response = None →
  __make_request self method_url kwargs
  = Err (SendRequestError kwargs (url_of self method_url)).
Proof.
  intros Hget Hstatus Hjson.
  rewrite make_request_cases, Hget, Hstatus, Hjson. reflexivity.
Qed.

Lemma non_json_body_raises_SendRequestError_witness :
  __make_request (client_answering response_not_json) POSTS_URL []
  = Err (SendRequestError []
           "https://api.cityscreen.io/harvester/v2/Posts").
Proof.
  apply (non_json_body_raises_SendRequestError
           (client_answering response_not_json) POSTS_URL []
           response_not_json); reflexivity.
Defined.

(** C4, as stated, fails: a response with status 300, which is not a 2xx
    status, and a body that parses to a truthy value is returned, not
    raised. *)
Lemma status_300_is_returned :
  requests.status_code response_300 = 300%Z
  ∧ __make_request (client_answering response_300) POSTS_URL []
    = Ok (VList [VInt 1]).
Proof. split; reflexivity. Qed.

(** C4, amended: [__make_request] raises
    [StatusCodeError(params, url, status code, response text)] exactly when
    the server answers with a status code from 400 to 599, or with any
    other status and a body that parses to a falsy JSON value; a response
    with status 500 raises it with code 500. *)
Theorem StatusCodeError_exactly (self : LightAirQ) (method_url : string)
    (kwargs : params) :
  (∀ (p : params) (url : string) (code : Z) (body : string),
     __make_request self method_url kwargs
     = Err (StatusCodeError p url code body)
     ↔ ∃ response : requests.Response,
         session_get self (url_of self method_url) kwargs (timeout self)
         = inr response
         ∧ p = kwargs ∧ url = url_of self method_url
         ∧ code = requests.status_code response
         ∧ body = requests.text response
         ∧ ((400 ≤ code < 600)%Z
            ∨ ∃ response_json : value,
                requests.json response = Some response_json
                ∧ truthy response_json = false))
  ∧ (∀ response : requests.Response,
       session_get self (url_of self method_url) kwargs (timeout self)
       = inr response →
       requests.status_code response = 500%Z →
       __make_request self method_url kwargs
       = Err (StatusCodeError kwargs (url_of self method_url) 500
                (requests.text response))).
Proof.
  split.
  - intros p url code body. rewrite make_request_cases. split.
    + destruct (session_get self _ kwargs _) as [[]|response] eqn:Hget;
        try discriminate.
      destruct (requests.raise_for_status response) eqn:Hs.
      * intros [= <- <- <- <-]. exists response.
        repeat (split; [reflexivity|]). left.
        unfold requests.raise_for_status in Hs. lia.
      * destruct (requests.json response) as [j|] eqn:Hj; [|discriminate].
        destruct (truthy j) eqn:Ht; [discriminate|].
        intros [= <- <- <- <-]. exists response.
        repeat (split; [reflexivity|]). right. eauto.
    + intros (response & -> & -> & -> & -> & -> & Hcond).
      destruct (requests.raise_for_status response) eqn:Hs; [reflexivity|].
      destruct Hcond as [Hcode|(j & -> & ->)]; [|reflexivity].
      unfold requests.raise_for_status in Hs. lia.
  - intros response Hget Hcode. rewrite make_request_cases, Hget.
    unfold requests.raise_for_status. rewrite Hcode. reflexivity.
Qed.

Lemma StatusCodeError_exactly_witness :
  __make_request (client_answering response_500) POSTS_URL []
  = Err (StatusCodeError [] "https://api.cityscreen.io/harvester/v2/Posts"
           500 "Internal Server Error").
Proof.
  apply (proj2 (StatusCodeError_exactly
                  (client_answering response_500) POSTS_URL [])
           response_500); reflexivity.
Defined.



(** C2, as stated, fails: the call returns the post at reference 0 alone,
    and that is the post with id 1. *)
Lemma scenario_returns_post_1_alone :
  (sort_posts_in_order_of_increasing_distance scenario_heap [0; 1] origin).2
  = Ok [0]
  ∧ scenario_heap 0 !! "id" = Some (VInt 1).
Proof. rewrite scenario_outcome. split; reflexivity. Qed.

(** C2, amended: in the scenario the call stores a positive distance in the
    post with id 1 and the distance 0 in the post with id 2, which lies on
    the reference point, and returns the post with id 1 alone. *)
Theorem scenario_ranking :
  ∃ σ' : heap,
    sort_posts_in_order_of_increasing_distance scenario_heap [0; 1] origin
    = (σ', Ok [0])
    ∧ σ' 0 !! "id" = Some (VInt 1)
    ∧ σ' 0 !! "distance" = Some (VFloat km_post_1)
    ∧ (0 < km_post_1)%R
    ∧ σ' 1 !! "id" = Some (VInt 2)
    ∧ σ' 1 !! "distance" = Some (VFloat 0).
Proof.
  exists (stamped origin scenario_heap [0; 1]).
  split; [exact scenario_outcome|].
  split; [by rewrite stamped_lookup_ne|].
  split.
  { apply stamped_lookup_distance; [by left|exact distance_to_post_1]. }
  split; [exact km_post_1_pos|].
  split; [by rewrite stamped_lookup_ne|].
  apply stamped_lookup_distance; [|exact distance_to_post_2].
  apply elem_of_cons. right. by left.
Qed.

(** C9, as stated, fails: a call that raises on the first post leaves the
    heap as it was. *)
Lemma first_post_failure_changes_nothing :
  sort_posts_in_order_of_increasing_distance unlocated_heap [0] origin
  = (unlocated_heap, Err (SortPostsError [unlocated_heap 0])).
Proof. reflexivity. Qed.

(** C9, amended: the call stores the distance in the post objects at the
    positions before the first post whose distance cannot be computed
    (all of them when there is none, whether they are returned or not), and
    changes nothing else on the heap; when the distance of the post at
    position [k] cannot be computed the call raises, and the posts from [k]
    on are changed only where they are also referenced before [k]. *)
Theorem distances_stored_before_first_failure (σ : heap)
    (posts : list ref) (reference_point : point) :
  (∀ (i : nat) (post : ref),
     i < processed reference_point σ posts → posts !! i = Some post →
     ∃ distance : R,
       distance_to reference_point (σ post) = Ok distance
       ∧ (sort_posts_in_order_of_increasing_distance σ posts
            reference_point).1 post
         = <["distance" := VFloat distance]> (σ post))
  ∧ (∀ p : ref,
       p ∉ take (processed reference_point σ posts) posts →
       (sort_posts_in_order_of_increasing_distance σ posts
          reference_point).1 p = σ p)
  ∧ (processed reference_point σ posts < length posts →
     ∃ (post : ref) (err : exn),
       posts !! processed reference_point σ posts = Some post
       ∧ distance_to reference_point (σ post) = Err err
       ∧ (sort_posts_in_order_of_increasing_distance σ posts
            reference_point).2
         = Err (sort_posts_except
                  ((sort_posts_in_order_of_increasing_distance σ posts
                      reference_point).1 <$> posts)
                  err))
  ∧ (processed reference_point σ posts = length posts →
     ∀ post : ref, post ∈ posts →
       is_Some ((sort_posts_in_order_of_increasing_distance σ posts
                   reference_point).1 post !! "distance")).
Proof.
  set (rp := reference_point). rewrite !sort_posts_heap.
  fold rp. set (k := processed rp σ posts).
  assert (Hin : ∀ i post, i < k → posts !! i = Some post →
                  post ∈ take k posts).
  { intros i post Hi Hp. apply list_elem_of_lookup. exists i.
    by rewrite lookup_take_lt. }
  split; [|split; [|split]].
  - intros i post Hi Hp.
    pose proof (processed_before rp σ posts i post Hi Hp) as Hd.
    exists (km rp (σ post)). split; [done|].
    unfold stamped. rewrite decide_True by eauto.
    unfold stamp. by rewrite Hd.
  - intros p Hp. unfold stamped. by rewrite decide_False.
  - intros Hlt.
    destruct (sort_posts_incomplete σ posts rp Hlt) as (post & err & ? & ? & Hr).
    exists post, err. by fold k in Hr.
  - intros Hall post Hp. rewrite Hall, firstn_all.
    apply list_elem_of_lookup in Hp as [i Hp].
    pose proof (processed_before rp σ posts i post) as Hd.
    rewrite (stamped_lookup_distance rp σ posts post (km rp (σ post))).
    + done.
    + by eapply list_elem_of_lookup_2.
    + apply Hd; [|done]. fold k. rewrite Hall. by apply lookup_lt_Some in Hp.
Qed.

Lemma distances_stored_before_first_failure_witness :
  ∃ distance : R,
    distance_to origin (scenario_heap 0) = Ok distance
    ∧ (sort_posts_in_order_of_increasing_distance scenario_heap [0; 1]
         origin).1 0
      = <["distance" := VFloat distance]> (scenario_heap 0).
Proof.
  apply (proj1 (distances_stored_before_first_failure scenario_heap [0; 1]
                  origin) 0 0).
  - rewrite scenario_processed. lia.
  - reflexivity.
Defined.

(** *** Flattening *)

(** Storing the items of [items] one by one is the union that prefers
    [items]. *)
Lemma map_fold_insert_union (items base : dict) :
  map_fold (λ dict_key dict_value (acc : dict), <[dict_key := dict_value]> acc)
    base items
  = items ∪ base.
Proof.
  apply (map_fold_weak_ind (λ r m, r = m ∪ base)).
  - by rewrite (left_id_L ∅ (∪)).
  - intros key v m r _ ->. by rewrite insert_union_l.
Qed.

Lemma flatten_geo_dict (post items : dict) :
  post !! "geo" = Some (VDict items) →
  flatten_geo (VDict post) = (VDict (items ∪ delete "geo" post), None).
Proof.
  intros Hgeo. unfold flatten_geo. rewrite Hgeo.
  by rewrite map_fold_insert_union.
Qed.

(** C10, as stated, fails: the post keeps a [geo] key when its [geo]
    object has one. *)
Lemma geo_in_geo_is_kept :
  flatten_geo (VDict post_with_geo_in_geo)
  = (VDict (list_to_map [("id", VInt 3); ("geo", VInt 1)]), None).
Proof. reflexivity. Qed.

(** C10, amended: flattening a post whose [geo] is an object gives every key
    of [geo] the value it has in [geo], whatever the post had under that
    key; leaves every other key but [geo] with the value the post had; and
    removes the key [geo] unless [geo] itself has that key. *)
Theorem geo_keys_win (post items : dict) :
  post !! "geo" = Some (VDict items) →
  ∃ flat : dict,
    flatten_geo (VDict post) = (VDict flat, None)
    ∧ (∀ (key : string) (v : value),
         items !! key = Some v → flat !! key = Some v)
    ∧ (items !! "geo" = None → flat !! "geo" = None)
    ∧ (∀ key : string,
         key ≠ "geo" → items !! key = None → flat !! key = post !! key).
Proof.
  intros Hgeo. exists (items ∪ delete "geo" post).
  split; [by apply flatten_geo_dict|]. split; [|split].
  - intros key v Hv. by apply lookup_union_Some_l.
  - intros Hnone. rewrite lookup_union_r by done. apply lookup_delete_eq.
  - intros key Hne Hnone. rewrite lookup_union_r by done.
    by rewrite lookup_delete_ne.
Qed.

Lemma geo_keys_win_witness :
  ∃ flat : dict,
    flatten_geo (VDict raw_post_1) = (VDict flat, None)
    ∧ (∀ (key : string) (v : value),
         (list_to_map [("latitude", VInt 10); ("longitude", VInt 10)] : dict)
           !! key = Some v →
         flat !! key = Some v)
    ∧ ((list_to_map [("latitude", VInt 10); ("longitude", VInt 10)] : dict)
         !! "geo" = None →
       flat !! "geo" = None)
    ∧ (∀ key : string,
         key ≠ "geo" →
         (list_to_map [("latitude", VInt 10); ("longitude", VInt 10)] : dict)
           !! key = None →
         flat !! key = raw_post_1 !! key).
Proof.
  apply (geo_keys_win raw_post_1
           (list_to_map [("latitude", VInt 10); ("longitude", VInt 10)])).
  reflexivity.
Defined.

(** The whole call: when the server sends a list of posts that each have a
    [geo] object, every post comes back flattened. *)
Lemma flatten_posts_well_formed (posts flat : list value) :
  Forall2
    (λ raw post,
       ∃ d items : dict,
         raw = VDict d ∧ d !! "geo" = Some (VDict items)
         ∧ post = VDict (items ∪ delete "geo" d))
    posts flat →
  flatten_posts posts = (flat, None).
Proof.
  induction 1 as [|raw post posts flat (d & items & -> & Hgeo & ->) _ IH].
  - reflexivity.
  - cbn [flatten_posts]. rewrite (flatten_geo_dict d items Hgeo), IH.
    reflexivity.
Qed.

Lemma get_available_posts_well_formed (self : LightAirQ)
    (posts flat : list value) :
  __make_request self POSTS_URL [] = Ok (VList posts) →
  Forall2
    (λ raw post,
       ∃ d items : dict,
         raw = VDict d ∧ d !! "geo" = Some (VDict items)
         ∧ post = VDict (items ∪ delete "geo" d))
    posts flat →
  get_available_posts self = Ok (VList flat).
Proof.
  intros Hreq Hwf. unfold get_available_posts. rewrite Hreq.
  cbn [flatten_response]. by rewrite (flatten_posts_well_formed posts flat).
Qed.

(** *** Reshaping a measurement *)

(** The loop over the items of [data], with a units object: every key that
    has a unit gets its value and the unit as one string. *)
Lemma annotate_units (format : value → string) (units base data : dict) :
  map_fold (annotate format (VDict units)) (base, None) data
  = (map_imap
       (λ key x,
          match units !! key with
          | Some unit => Some (VStr (format x ++ " " ++ format unit)%string)
          | None => None
          end) data
     ∪ base,
     None).
Proof.
  apply (map_fold_weak_ind
           (λ r m,
              r = (map_imap
                     (λ key x,
                        match units !! key with
                        | Some unit =>
                            Some (VStr (format x ++ " " ++ format unit)%string)
                        | None => None
                        end) m
                   ∪ base, None))).
  - by rewrite map_imap_empty, (left_id_L ∅ (∪)).
  - intros key x m r Hfresh ->. unfold annotate, contains, getitem, dict_getitem.
    destruct (units !! key) as [unit|] eqn:Hunit.
    + rewrite bool_decide_true by eauto.
      erewrite map_imap_insert_Some by (by rewrite Hunit).
      by rewrite insert_union_l.
    + rewrite bool_decide_false by (by intros [? ?]).
      rewrite map_imap_insert_None by (by rewrite Hunit).
      rewrite delete_id; [done|]. by rewrite map_lookup_imap, Hfresh.
Qed.

Lemma reshape_well_formed (format : value → string)
    (measurements meta units sample aqi cityair : dict) (data : list value)
    (aqi_value : value) :
  measurements !! "meta" = Some (VDict meta) →
  meta !! "units" = Some (VDict units) →
  measurements !! "data" = Some (VList data) →
  last data = Some (VDict sample) →
  sample !! "aqi" = Some (VDict aqi) →
  aqi !! "cityairAqi" = Some (VDict cityair) →
  cityair !! "value" = Some aqi_value →
  ∃ result : dict,
    (reshape format (VDict measurements)).2 = Ok (VDict result)
    ∧ ∀ key : string,
        result !! key = annotated format units sample aqi_value key.
Proof.
  intros Hmeta Hunits Hdata Hlast Haqi Hcity Hvalue.
  unfold reshape, getitem, getitem_last, pop, dict_getitem.
  rewrite Hmeta. cbn [mbind result_bind]. rewrite Hunits, Hdata.
  cbn [mbind result_bind]. rewrite Hlast, Haqi, Hcity.
  cbn [mbind result_bind]. rewrite Hvalue, annotate_units.
  eexists. split; [reflexivity|].
  intros key. unfold annotated.
  set (renamed := <["cityairAqi" := aqi_value]> (delete "aqi" sample)).
  rewrite lookup_union, map_lookup_imap.
  destruct (renamed !! key) as [x|]; [|done]. cbn.
  by destruct (units !! key).
Qed.

(** C8: on a well-formed response the call returns the last sample of
    [data] in which [aqi] is gone, [cityairAqi] holds the value found under
    [aqi.cityairAqi.value], and then every field that has a unit in
    [meta.units] holds its value, a space and the unit as one string. *)
Theorem last_measurement_is_reshaped (format : value → string)
    (self : LightAirQ) (utcnow post_id : Z)
    (measurements meta units sample aqi cityair : dict) (data : list value)
    (aqi_value : value) :
  __make_request self MEASUREMENTS_URL (measurement_params post_id utcnow)
  = Ok (VDict measurements) →
  measurements !! "meta" = Some (VDict meta) →
  meta !! "units" = Some (VDict units) →
  measurements !! "data" = Some (VList data) →
  last data = Some (VDict sample) →
  sample !! "aqi" = Some (VDict aqi) →
  aqi !! "cityairAqi" = Some (VDict cityair) →
  cityair !! "value" = Some aqi_value →
  ∃ result : dict,
    get_last_measurement_from_post format self utcnow post_id
    = Ok (VDict result)
    ∧ (∀ key : string,
         result !! key
         = match (<["cityairAqi" := aqi_value]> (delete "aqi" sample)) !! key
           with
           | None => None
           | Some x =>
               match units !! key with
               | Some unit =>
                   Some (VStr (format x ++ " " ++ format unit)%string)
               | None => Some x
               end
           end)
    ∧ result !! "aqi" = None
    ∧ (units !! "cityairAqi" = None →
       result !! "cityairAqi" = Some aqi_value).
Proof.
  intros Hreq Hmeta Hunits Hdata Hlast Haqi Hcity Hvalue.
  destruct (reshape_well_formed format measurements meta units sample aqi
              cityair data aqi_value) as (result & Hres & Hkeys); try done.
  exists result. split; [|split; [exact Hkeys|split]].
  - unfold get_last_measurement_from_post. rewrite Hreq.
    destruct (reshape format (VDict measurements)) as [state r].
    cbn [snd] in Hres. by subst r.
  - rewrite Hkeys. unfold annotated.
    by rewrite lookup_insert_ne, lookup_delete_eq.
  - intros Hnone. rewrite Hkeys. unfold annotated.
    by rewrite lookup_insert_eq, Hnone.
Qed.

Lemma last_measurement_is_reshaped_witness :
  ∃ result : dict,
    get_last_measurement_from_post format_plain
      (client_answering response_measurements) 1651399680000000 42
    = Ok (VDict result)
    ∧ (∀ key : string,
         result !! key
         = match (<["cityairAqi" := VInt 3]>
                    (delete "aqi"
                       (list_to_map
                          [("date", VStr "2022-05-01T10:05:00Z");
                           ("temperature", VInt 21); ("pm25", VInt 4);
                           ("aqi", VDict (list_to_map
                              [("cityairAqi",
                                VDict (list_to_map [("value", VInt 3)]))]))]
                        : dict))) !! key
           with
           | None => None
           | Some x =>
               match (list_to_map [("temperature", VStr "C");
                                   ("pm25", VStr "mg")] : dict) !! key with
               | Some unit =>
                   Some (VStr (format_plain x ++ " " ++ format_plain unit)%string)
               | None => Some x
               end
           end)
    ∧ result !! "aqi" = None
    ∧ ((list_to_map [("temperature", VStr "C"); ("pm25", VStr "mg")] : dict)
         !! "cityairAqi" = None →
       result !! "cityairAqi" = Some (VInt 3)).
Proof.
  eapply (last_measurement_is_reshaped format_plain
            (client_answering response_measurements) 1651399680000000 42);
    reflexivity.
Defined.

(** The sample call, evaluated. *)
Lemma sample_measurement_outcome :
  get_last_measurement_from_post format_plain
    (client_answering response_measurements) 1651399680000000 42
  = Ok (VDict (list_to_map
          [("date", VStr "2022-05-01T10:05:00Z");
           ("temperature", VStr "21 C");
           ("pm25", VStr "4 mg");
           ("cityairAqi", VInt 3)])).
Proof. vm_compute. reflexivity. Qed.

(** *** Propagation of errors *)

(** What the conversion to [float] raises. *)
Lemma as_float_raises (v : value) (err : exn) :
  as_float v = Err err →
  err = Builtin TypeError ∨ err = Builtin OverflowError.
Proof.
  destruct v as [|b|n|x|s|l|d]; cbn; try (intros [= <-]; by left); try done.
  destruct (Z.abs n <? 2 ^ 1024 - 2 ^ 970)%Z; [done|]. intros [= <-]. by right.
Qed.

(** Whatever [__haversine] raises is a [HaversineFormulaError] on its two
    arguments, or the [OverflowError] of a conversion to [float]. *)
Lemma haversine_raises (point1 point2 : point) (err : exn) :
  __haversine point1 point2 = Err err →
  err = HaversineFormulaError point1 point2 ∨ err = Builtin OverflowError.
Proof.
  unfold __haversine.
  destruct (haversine_body point1 point2) as [?|e] eqn:Hbody; [done|].
  assert (He : e = Builtin TypeError ∨ e = Builtin ValueError
               ∨ e = Builtin OverflowError).
  { revert Hbody. unfold haversine_body, radians, math_sqrt, math_asin.
    repeat (match goal with
            | |- context [as_float ?v] =>
                let H := fresh in
                destruct (as_float v) eqn:H;
                  [|apply as_float_raises in H as [-> | ->]]
            | |- context [Rlt_dec ?x ?y] => destruct (Rlt_dec x y)
            end; cbn [mbind result_bind]);
      intros [= <-]; auto. }
  destruct He as [-> | [-> | ->]]; cbn; intros [= <-]; auto.
Qed.

(** Neither of the two is re-wrapped by the [except] clauses of the
    ranker. *)
Lemma sort_posts_except_haversine (data : list dict) (point1 point2 : point)
    (err : exn) :
  __haversine point1 point2 = Err err → sort_posts_except data err = err.
Proof. intros Hhav. by destruct (haversine_raises _ _ _ Hhav) as [-> | ->]. Qed.

Lemma get_available_posts_request_error (self : LightAirQ) (err : exn) :
  __make_request self POSTS_URL [] = Err err →
  get_available_posts self = Err err.
Proof.
  intros Hreq. unfold get_available_posts. rewrite Hreq. f_equal.
  unfold get_available_posts_except.
  by destruct (make_request_raises _ _ _ _ Hreq) as [-> | ->].
Qed.

Lemma get_last_measurement_request_error (format : value → string)
    (self : LightAirQ) (utcnow post_id : Z) (err : exn) :
  __make_request self MEASUREMENTS_URL (measurement_params post_id utcnow)
  = Err err →
  get_last_measurement_from_post format self utcnow post_id = Err err.
Proof.
  intros Hreq. unfold get_last_measurement_from_post. rewrite Hreq. f_equal.
  unfold get_last_measurement_except.
  by destruct (make_request_raises _ _ _ _ Hreq) as [-> | ->].
Qed.

Lemma sort_posts_distance_error (σ : heap) (posts : list ref) (rp : point)
    (post : ref) (latitude longitude : value) (err : exn) :
  posts !! processed rp σ posts = Some post →
  σ post !! "latitude" = Some latitude →
  σ post !! "longitude" = Some longitude →
  __haversine rp (latitude, longitude) = Err err →
  (sort_posts_in_order_of_increasing_distance σ posts rp).2 = Err err.
Proof.
  intros Hp Hlat Hlon Hhav.
  destruct (sort_posts_incomplete σ posts rp) as (post' & err' & Hp' & Hd & ->).
  { by apply lookup_lt_Some in Hp. }
  assert (post' = post) as -> by congruence.
  unfold distance_to, dict_getitem in Hd. rewrite Hlat, Hlon in Hd.
  cbn [mbind result_bind] in Hd. assert (err' = err) as -> by congruence.
  by rewrite (sort_posts_except_haversine _ _ _ _ Hhav).
Qed.

(** C7: an exception raised by [__make_request] leaves
    [get_available_posts] and [get_last_measurement_from_post] as it is, and
    an exception raised by [__haversine], a [DistanceException] or the
    [OverflowError] of a conversion to [float], leaves
    [sort_posts_in_order_of_increasing_distance] as it is; so a
    [GetPostsError] or a [GetMeasurementError] is raised only after the
    request has returned. *)
Theorem domain_errors_propagate_unchanged :
  (∀ (self : LightAirQ) (err : exn),
     __make_request self POSTS_URL [] = Err err →
     get_available_posts self = Err err)
  ∧ (∀ (format : value → string) (self : LightAirQ) (utcnow post_id : Z)
       (err : exn),
       __make_request self MEASUREMENTS_URL (measurement_params post_id utcnow)
       = Err err →
       get_last_measurement_from_post format self utcnow post_id = Err err)
  ∧ (∀ (σ : heap) (posts : list ref) (reference_point : point) (post : ref)
       (latitude longitude : value) (err : exn),
       posts !! processed reference_point σ posts = Some post →
       σ post !! "latitude" = Some latitude →
       σ post !! "longitude" = Some longitude →
       __haversine reference_point (latitude, longitude) = Err err →
       (sort_posts_in_order_of_increasing_distance σ posts reference_point).2
       = Err err
       ∧ (is_DistanceException err = true ∨ err = Builtin OverflowError))
  ∧ (∀ (self : LightAirQ) (data : value),
       get_available_posts self = Err (GetPostsError data) →
       is_Ok (__make_request self POSTS_URL []) = true)
  ∧ (∀ (format : value → string) (self : LightAirQ) (utcnow post_id : Z)
       (data : value),
       get_last_measurement_from_post format self utcnow post_id
       = Err (GetMeasurementError data) →
       is_Ok (__make_request self MEASUREMENTS_URL
                (measurement_params post_id utcnow)) = true).
Proof.
  split; [exact get_available_posts_request_error|].
  split; [exact get_last_measurement_request_error|].
  split; [|split].
  - intros σ posts rp post latitude longitude err Hp Hlat Hlon Hhav. split.
    + by eapply sort_posts_distance_error.
    + destruct (haversine_raises _ _ _ Hhav) as [-> | ->]; auto.
  - intros self data Hget.
    destruct (__make_request self POSTS_URL []) as [?|err] eqn:Hreq; [done|].
    rewrite (get_available_posts_request_error _ _ Hreq) in Hget.
    injection Hget as ->.
    by destruct (make_request_raises _ _ _ _ Hreq).
  - intros format self utcnow post_id data Hget.
    destruct (__make_request self MEASUREMENTS_URL _) as [?|err] eqn:Hreq;
      [done|].
    rewrite (get_last_measurement_request_error _ _ _ _ _ Hreq) in Hget.
    injection Hget as ->.
    by destruct (make_request_raises _ _ _ _ Hreq).
Qed.

Lemma domain_errors_propagate_unchanged_witness :
  get_available_posts (client_answering response_500)
  = Err (StatusCodeError [] "https://api.cityscreen.io/harvester/v2/Posts"
           500 "Internal Server Error").
Proof.
  apply (proj1 domain_errors_propagate_unchanged
           (client_answering response_500)).
  reflexivity.
Defined.

(** *** Further properties *)

(** The messages of [StatusCodeError] and [DecodingError] do not show the
    response text they are constructed with. *)
Theorem message_omits_response_text (p : params) (url : string) (code : Z)
    (body1 body2 : string) :
  message (StatusCodeError p url code body1)
  = message (StatusCodeError p url code body2)
  ∧ message (DecodingError p url code body1)
    = message (DecodingError p url code body2).
Proof. split; reflexivity. Qed.

(** [__make_request] never raises [DecodingError]. *)
Theorem DecodingError_is_unreachable (self : LightAirQ)
    (method_url : string) (kwargs : params) :
  raises_DecodingError (__make_request self method_url kwargs) = false.
Proof.
  rewrite make_request_cases.
  destruct (session_get self _ kwargs _) as [[]|response]; try reflexivity.
  destruct (requests.raise_for_status response); [reflexivity|].
  destruct (requests.json response) as [j|]; [|reflexivity].
  destruct (truthy j); reflexivity.
Qed.


(** *** Further properties of the distance *)






(** *** Further properties of the transport *)

(** A value [__make_request] returns is truthy and is what [json()] made of
    a response whose status [raise_for_status] lets through. *)
Lemma make_request_returns (self : LightAirQ) (method_url : string)
    (kwargs : params) (response_json : value) :
  __make_request self method_url kwargs = Ok response_json →
  ∃ response : requests.Response,
    session_get self (url_of self method_url) kwargs (timeout self)
    = inr response
    ∧ requests.raise_for_status response = false
    ∧ requests.json response = Some response_json
    ∧ truthy response_json = true.
Proof.
  rewrite make_request_cases.
  destruct (session_get self _ kwargs _) as [[]|response]; try done.
  destruct (requests.raise_for_status response) eqn:Hs; [done|].
  destruct (requests.json response) as [j|] eqn:Hj; [|done].
  destruct (truthy j) eqn:Ht; [|done].
  intros [= <-]. by exists response.
Qed.

(** [__make_request] never returns an empty or otherwise falsy document:
    what it returns is the truthy JSON body of a response whose status is
    not a client or server error code. *)
Theorem make_request_returns_truthy_body (self : LightAirQ)
    (method_url : string) (kwargs : params) (response_json : value) :
  __make_request self method_url kwargs = Ok response_json →
  truthy response_json = true
  ∧ ∃ response : requests.Response,
      session_get self (url_of self method_url) kwargs (timeout self)
      = inr response
      ∧ requests.json response = Some response_json
      ∧ ((requests.status_code response < 400)%Z
         ∨ (600 ≤ requests.status_code response)%Z).
Proof.
  intros Hreq.
  destruct (make_request_returns _ _ _ _ Hreq) as (response & ? & Hs & ? & ?).
  split; [done|]. exists response. split; [done|]. split; [done|].
  unfold requests.raise_for_status in Hs. lia.
Qed.

Lemma make_request_returns_truthy_body_witness :
  truthy (VList [VInt 1]) = true
  ∧ ∃ response : requests.Response,
      session_get (client_answering response_300)
        (url_of (client_answering response_300) POSTS_URL) []
        (timeout (client_answering response_300))
      = inr response
      ∧ requests.json response = Some (VList [VInt 1])
      ∧ ((requests.status_code response < 400)%Z
         ∨ (600 ≤ requests.status_code response)%Z).
Proof.
  apply (make_request_returns_truthy_body (client_answering response_300)
           POSTS_URL [] (VList [VInt 1])).
  reflexivity.
Defined.

(** When the session raises instead of answering (no connection, a
    timeout, too many redirections, a bad url), [__make_request] raises
    [SendRequestError] with the parameters and the url of the request. *)
Theorem session_failure_raises_SendRequestError (self : LightAirQ)
    (method_url : string) (kwargs : params) (err : requests.exception) :
  session_get self (url_of self method_url) kwargs (timeout self) = inl err →
  requests.is_HTTPError err = false →
  __make_request self method_url kwargs
  = Err (SendRequestError kwargs (url_of self method_url)).
Proof.
  intros Hget Hnot. rewrite make_request_cases, Hget. by destruct err.
Qed.

Lemma session_failure_raises_SendRequestError_witness :
  __make_request (client_failing requests.ReadTimeout) MEASUREMENTS_URL
    (measurement_params 42 1651399680000000)
  = Err (SendRequestError (measurement_params 42 1651399680000000)
           (url_of (client_failing requests.ReadTimeout) MEASUREMENTS_URL)).
Proof.
  apply (session_failure_raises_SendRequestError
           (client_failing requests.ReadTimeout) MEASUREMENTS_URL
           (measurement_params 42 1651399680000000) requests.ReadTimeout);
    reflexivity.
Defined.

(** *** Further properties of the catalog *)

Lemma flatten_geo_returns (post post' : value) :
  flatten_geo post = (post', None) → flattens_to post post'.
Proof.
  unfold flatten_geo, flattens_to.
  destruct post as [| | | | | |d]; try done.
  destruct (d !! "geo") as [geo|] eqn:Hgeo; [|done].
  destruct geo as [| | | | | |items]; try done.
  rewrite map_fold_insert_union. intros [= <-]. by exists d, items.
Qed.


Lemma flatten_posts_returns (posts flat : list value) :
  flatten_posts posts = (flat, None) → Forall2 flattens_to posts flat.
Proof.
  revert flat. induction posts as [|post rest IH]; intros flat.
  - intros [= <-]. constructor.
  - cbn [flatten_posts].
    destruct (flatten_geo post) as [post' [err|]] eqn:Hpost; [done|].
    destruct (flatten_posts rest) as [rest' outcome] eqn:Hrest.
    intros [= <- ->]. constructor; [by apply flatten_geo_returns|by apply IH].
Qed.



(** [get_available_posts] returns exactly when the server sends a list in
    which every element is an object with an object under [geo], and then
    it returns that list with every post flattened, in the same order. *)
Theorem get_available_posts_returns_exactly_the_flattened (self : LightAirQ)
    (returned : value) :
  get_available_posts self = Ok returned
  ↔ ∃ posts flat : list value,
      __make_request self POSTS_URL [] = Ok (VList posts)
      ∧ Forall2 flattens_to posts flat
      ∧ returned = VList flat.
Proof.
  split.
  - unfold get_available_posts.
    destruct (__make_request self POSTS_URL []) as [sent|err] eqn:Hreq;
      [|done].
    destruct (make_request_returns _ _ _ _ Hreq) as (_ & _ & _ & _ & Ht).
    destruct (flatten_response sent) as [posts' [err|]] eqn:Hflat; [done|].
    intros [= <-]. unfold flatten_response in Hflat.
    destruct sent as [| | | |s|l|d]; try done.
    + cbn in Ht. destruct (String.eqb s ""); done.
    + destruct (flatten_posts l) as [l' outcome] eqn:Hl.
      injection Hflat as <- ->. exists l, l'.
      split; [done|]. split; [by apply flatten_posts_returns|done].
    + cbn in Ht. destruct (bool_decide (size d = 0)); done.
  - intros (posts & flat & Hreq & Hwf & ->).
    by apply (get_available_posts_well_formed self posts flat).
Qed.



(** A post without [geo] makes the call raise [GetPostsError]; its data is
    the list as the loop left it: the posts before flattened, the post
    without [geo] and the posts after it as the server sent them. *)
Theorem missing_geo_raises_GetPostsError (self : LightAirQ)
    (before flat after : list value) (post : dict) :
  __make_request self POSTS_URL [] = Ok (VList (before ++ VDict post :: after)) →
  Forall2 flattens_to before flat →
  post !! "geo" = None →
  get_available_posts self
  = Err (GetPostsError (VList (flat ++ VDict post :: after))).
Proof.
  intros Hreq Hwf Hgeo. unfold get_available_posts. rewrite Hreq.
  cbn [flatten_response].
  assert (Hloop : flatten_posts (before ++ VDict post :: after)
                  = (flat ++ VDict post :: after, Some (Builtin KeyError))).
  { clear Hreq.
    induction Hwf as [|raw p before flat (d & items & -> & Hd & ->) _ IH].
    - cbn. by rewrite Hgeo.
    - cbn [app flatten_posts]. by rewrite (flatten_geo_dict d items Hd), IH. }
  by rewrite Hloop.
Qed.

Lemma missing_geo_raises_GetPostsError_witness :
  get_available_posts
    (client_with_posts
       (VList [VDict raw_post_1; VDict post_without_geo; VDict raw_post_2]))
  = Err (GetPostsError
           (VList [VDict post_1; VDict post_without_geo; VDict raw_post_2])).
Proof.
  apply (missing_geo_raises_GetPostsError
           (client_with_posts
              (VList [VDict raw_post_1; VDict post_without_geo;
                      VDict raw_post_2]))
           [VDict raw_post_1] [VDict post_1] [VDict raw_post_2]
           post_without_geo).
  - reflexivity.
  - constructor; [|constructor].
    exists raw_post_1,
      (list_to_map [("latitude", VInt 10); ("longitude", VInt 10)]).
    split; [reflexivity|]. split; reflexivity.
  - reflexivity.
Defined.

(** *** Further properties of the ranking *)

Lemma distance_to_stamped (rp : point) (σ : heap) (done : list ref)
    (p : ref) :
  distance_to rp (stamped rp σ done p) = distance_to rp (σ p).
Proof.
  unfold stamped. destruct (decide (p ∈ done)); [|done].
  apply distance_to_stamp.
Qed.

Lemma processed_stamped (rp : point) (σ : heap) (done posts : list ref) :
  processed rp (stamped rp σ done) posts = processed rp σ posts.
Proof.
  induction posts as [|p rest IH]; [done|]. cbn [processed].
  by rewrite distance_to_stamped, IH.
Qed.

Lemma stamped_stamped (rp : point) (σ : heap) (done : list ref) :
  stamped rp (stamped rp σ done) done = stamped rp σ done.
Proof.
  apply functional_extensionality. intros p. unfold stamped.
  destruct (decide (p ∈ done)); [apply stamp_idemp|done].
Qed.

(** The pairs the loop collects, when every turn completes. *)
Lemma elem_of_distances (rp : point) (σ : heap) (posts : list ref)
    (distance : R) (index : nat) :
  processed rp σ posts = length posts →
  (distance, index) ∈ imap (λ i post, (km rp (σ post), i)) posts ↔
  ∃ post, posts !! index = Some post ∧ distance_to rp (σ post) = Ok distance.
Proof.
  intros Hall. rewrite elem_of_lookup_imap. split.
  - intros (i & post & [= -> ->] & Hp). exists post. split; [done|].
    apply (processed_before rp σ posts i); [|done].
    rewrite Hall. by apply lookup_lt_Some in Hp.
  - intros (post & Hp & Hd). exists index, post. split; [|done].
    unfold km. by rewrite Hd.
Qed.

Lemma distance_to_raises (rp : point) (post : dict) (err : exn) :
  distance_to rp post = Err err →
  err = Builtin KeyError
  ∨ (∃ p : point, err = HaversineFormulaError rp p)
  ∨ err = Builtin OverflowError.
Proof.
  unfold distance_to, dict_getitem.
  destruct (post !! "latitude") as [latitude|]; [|intros [= <-]; by left].
  destruct (post !! "longitude") as [longitude|]; [|intros [= <-]; by left].
  cbn [mbind result_bind]. intros Hhav. right.
  destruct (haversine_raises _ _ _ Hhav) as [-> | ->]; [left|by right].
  by exists (latitude, longitude).
Qed.


(** The comprehension raises nothing but the [KeyError] of a post without
    [isOnline], the indices being those of [posts]. *)
Lemma select_posts_raises (σ : heap) (posts : list ref)
    (distances : list (R * nat)) (err : exn) :
  Forall (λ pair : R * nat, is_Some (posts !! pair.2)) distances →
  select_posts σ posts distances = Err err → err = Builtin KeyError.
Proof.
  induction 1 as [|[distance index] rest [post Hp] _ IH]; [done|].
  cbn [select_posts fst snd] in *. unfold keeps, list_getitem, dict_getitem.
  rewrite Hp. destruct (truthy (VFloat distance)); cbn [mbind result_bind].
  - destruct (σ post !! "isOnline") as [v|]; cbn [mbind result_bind];
      [|by intros [= <-]].
    destruct (truthy v); cbn [mbind result_bind]; [|exact IH].
    destruct (select_posts σ posts rest); cbn [mbind result_bind]; [done|].
    intros [= <-]. by apply IH.
  - exact IH.
Qed.

(** The call leaves every field of every post but [distance] as it was. *)
Theorem sort_posts_changes_no_other_field (σ : heap) (posts : list ref)
    (reference_point : point) (p : ref) (key : string) :
  key ≠ "distance" →
  (sort_posts_in_order_of_increasing_distance σ posts reference_point).1 p
    !! key
  = σ p !! key.
Proof. intros Hne. rewrite sort_posts_heap. by apply stamped_lookup_ne. Qed.

Lemma sort_posts_changes_no_other_field_witness :
  (sort_posts_in_order_of_increasing_distance scenario_heap [0; 1] origin).1 1
    !! "isOnline"
  = scenario_heap 1 !! "isOnline".
Proof.
  apply (sort_posts_changes_no_other_field scenario_heap [0; 1] origin 1
           "isOnline").
  done.
Defined.

(** Calling again on the heap a call left behind changes nothing and has
    the same outcome: the same posts returned, or the same exception
    raised. *)
Theorem sort_posts_again_is_the_same (σ : heap) (posts : list ref)
    (reference_point : point) :
  sort_posts_in_order_of_increasing_distance
    (sort_posts_in_order_of_increasing_distance σ posts reference_point).1
    posts reference_point
  = sort_posts_in_order_of_increasing_distance σ posts reference_point.
Proof.
  set (rp := reference_point).
  set (k := processed rp σ posts).
  set (σ' := stamped rp σ (take k posts)).
  assert (Hheap : (sort_posts_in_order_of_increasing_distance σ posts rp).1
                  = σ') by apply sort_posts_heap.
  assert (Hk : processed rp σ' posts = k) by apply processed_stamped.
  assert (Hheap' : (sort_posts_in_order_of_increasing_distance σ' posts rp).1
                   = σ').
  { rewrite sort_posts_heap, Hk. apply stamped_stamped. }
  rewrite Hheap.
  rewrite (surjective_pairing
             (sort_posts_in_order_of_increasing_distance σ' posts rp)).
  rewrite (surjective_pairing
             (sort_posts_in_order_of_increasing_distance σ posts rp)).
  rewrite Hheap, Hheap'. f_equal.
  pose proof (processed_le rp σ posts) as Hle. fold k in Hle.
  destruct (decide (k = length posts)) as [Hall|Hne].
  - assert (Hσ' : σ' = stamped rp σ posts)
      by (unfold σ'; by rewrite Hall, firstn_all).
    rewrite (sort_posts_complete σ' posts rp) by (by rewrite Hk).
    rewrite (sort_posts_complete σ posts rp) by done.
    rewrite <- Hσ'.
    assert (Hagain : stamped rp σ' posts = σ').
    { rewrite Hσ'. apply stamped_stamped. }
    rewrite Hagain.
    assert (Hkm : imap (λ i post, (km rp (σ' post), i)) posts
                  = imap (λ i post, (km rp (σ post), i)) posts).
    { apply imap_ext. intros i p _. cbn. unfold km, σ'.
      by rewrite distance_to_stamped. }
    by rewrite Hkm.
  - destruct (sort_posts_incomplete σ' posts rp)
      as (p' & err' & Hp' & Hd' & ->); [rewrite Hk; lia|].
    destruct (sort_posts_incomplete σ posts rp)
      as (p & err & Hp & Hd & ->); [fold k; lia|].
    rewrite Hk in Hp' |- *. fold k in Hp |- *. fold σ'.
    assert (p' = p) as -> by congruence.
    unfold σ' in Hd'. rewrite distance_to_stamped in Hd'.
    assert (err' = err) as -> by congruence.
    unfold σ'. by rewrite stamped_stamped.
Qed.



(** Whatever the call raises is a [HaversineFormulaError] at the reference
    point, the [OverflowError] of a conversion to [float], or a
    [SortPostsError] carrying the posts as the call left them: no [KeyError]
    leaves it. *)
Theorem sort_posts_raises_only (σ : heap) (posts : list ref)
    (reference_point : point) (err : exn) :
  (sort_posts_in_order_of_increasing_distance σ posts reference_point).2
  = Err err →
  (∃ p : point, err = HaversineFormulaError reference_point p)
  ∨ err = Builtin OverflowError
  ∨ err
    = SortPostsError
        ((sort_posts_in_order_of_increasing_distance σ posts
            reference_point).1 <$> posts).
Proof.
  set (rp := reference_point). rewrite sort_posts_heap. fold rp.
  pose proof (processed_le rp σ posts) as Hle.
  destruct (decide (processed rp σ posts = length posts)) as [Hall|Hne].
  - rewrite (sort_posts_complete σ posts rp Hall), Hall, firstn_all.
    destruct (select_posts _ posts _) as [ranked|e] eqn:Hsel; [done|].
    intros [= <-]. right. right.
    apply select_posts_raises in Hsel as ->; [done|].
    apply Forall_forall. intros [distance index] Hin. cbn [snd].
    apply elem_of_list_sort, elem_of_distances in Hin as (post & -> & _);
      [eauto|done].
  - destruct (sort_posts_incomplete σ posts rp) as (p & e & _ & Hd & ->);
      [lia|].
    intros [= <-].
    destruct (distance_to_raises _ _ _ Hd) as [->|[[q ->]| ->]].
    + by right; right.
    + left. by exists q.
    + right. by left.
Qed.

Lemma sort_posts_raises_only_witness :
  (∃ p : point, SortPostsError [unlocated_heap 0] = HaversineFormulaError origin p)
  ∨ SortPostsError [unlocated_heap 0] = Builtin OverflowError
  ∨ SortPostsError [unlocated_heap 0]
    = SortPostsError
        ((sort_posts_in_order_of_increasing_distance unlocated_heap [0]
            origin).1 <$> [0]).
Proof.
  apply (sort_posts_raises_only unlocated_heap [0] origin).
  reflexivity.
Defined.



(** Whenever the call returns, the posts returned are those at a list of
    positions of the input, none of them twice, in the order returned; and a
    position is in that list exactly when its post carries, after the call,
    a distance other than zero and a truthy [isOnline]. *)
Theorem returned_posts_are_the_online_posts_at_a_distance (σ σ' : heap)
    (posts ranked : list ref) (reference_point : point) :
  sort_posts_in_order_of_increasing_distance σ posts reference_point
  = (σ', Ok ranked) →
  ∃ indices : list nat,
    NoDup indices
    ∧ Forall2 (λ (post : ref) (index : nat), posts !! index = Some post)
        ranked indices
    ∧ ∀ index : nat,
        index ∈ indices ↔
        ∃ (post : ref) (distance : R) (is_online : value),
          posts !! index = Some post
          ∧ σ' post !! "distance" = Some (VFloat distance)
          ∧ distance ≠ 0%R
          ∧ σ' post !! "isOnline" = Some is_online
          ∧ truthy is_online = true.
Proof.
  intros Hsort.
  destruct (sort_posts_returns _ _ _ _ _ Hsort) as (Hall & -> & Hsel).
  set (rp := reference_point) in *.
  set (distances := imap (λ i post, (km rp (σ post), i)) posts) in *.
  apply select_posts_returns in Hsel.
  set (pairs := filter (λ pair, kept (stamped rp σ posts) posts pair = true)
                  (list_sort distances)) in *.
  exists pairs.*2. split; [|split].
  - apply (sublist_NoDup _ (list_sort distances).*2).
    + unfold list_sort. rewrite merge_sort_Permutation. unfold distances.
      pose proof (imap_indices (λ post, km rp (σ post)) posts 0) as Hidx.
      cbn [Nat.add] in Hidx. rewrite Hidx. apply NoDup_seq.
    + apply fmap_sublist, sublist_filter.
  - by apply Forall2_fmap_r.
  - intros index. rewrite list_elem_of_fmap. split.
    + intros ([distance i] & -> & Hin). cbn [snd].
      apply list_elem_of_filter in Hin as [Hkept Hin].
      apply kept_true in Hkept as (Hne & post & on & Hp & Hon & Ht).
      apply elem_of_list_sort, elem_of_distances in Hin as (post' & Hp' & Hd);
        [|done].
      assert (post' = post) as -> by congruence.
      exists post, distance, on. split; [done|].
      split; [|done].
      apply stamped_lookup_distance; [by eapply list_elem_of_lookup_2|done].
    + intros (post & distance & on & Hp & Hdist & Hne & Hon & Ht).
      exists (distance, index). split; [done|].
      apply list_elem_of_filter. split.
      * apply kept_true. split; [done|]. by exists post, on.
      * apply elem_of_list_sort, elem_of_distances; [done|].
        exists post. split; [done|].
        assert (Hkm : distance_to rp (σ post) = Ok (km rp (σ post))).
        { apply (processed_before rp σ posts index); [|done].
          rewrite Hall. by apply lookup_lt_Some in Hp. }
        rewrite (stamped_lookup_distance rp σ posts post _
                   (list_elem_of_lookup_2 _ _ _ Hp) Hkm) in Hdist.
        by injection Hdist as <-.
Qed.

Lemma returned_posts_are_the_online_posts_at_a_distance_witness :
  ∃ indices : list nat,
    NoDup indices
    ∧ Forall2 (λ (post : ref) (index : nat), [0; 1] !! index = Some post)
        [0] indices
    ∧ ∀ index : nat,
        index ∈ indices ↔
        ∃ (post : ref) (distance : R) (is_online : value),
          [0; 1] !! index = Some post
          ∧ stamped origin scenario_heap [0; 1] post !! "distance"
            = Some (VFloat distance)
          ∧ distance ≠ 0%R
          ∧ stamped origin scenario_heap [0; 1] post !! "isOnline"
            = Some is_online
          ∧ truthy is_online = true.
Proof.
  exact (returned_posts_are_the_online_posts_at_a_distance scenario_heap
           (stamped origin scenario_heap [0; 1]) [0; 1] [0] origin
           scenario_outcome).
Defined.

(** *** Further properties of the measurements *)

(** The lower bound of the query is the last five-minute boundary at or
    before the clock, less five minutes: between five and ten minutes
    before the clock. *)
Theorem date__gt_is_the_boundary_before_last (utcnow : Z) :
  date__gt utcnow
  = (300000000 * (utcnow `div` 300000000) - 300000000)%Z
  ∧ (utcnow - 600000000 < date__gt utcnow ≤ utcnow - 300000000)%Z.
Proof.
  unfold date__gt, datetime_replace, datetime_minute.
  Z.div_mod_to_equations. lia.
Qed.

(** A measurements object that lacks [meta], [meta.units], [data], a last
    sample or the [aqi] of the last sample makes the call raise
    [GetMeasurementError] with the document as the server sent it. *)
Theorem incomplete_measurements_raise_GetMeasurementError
    (format : value → string) (self : LightAirQ) (utcnow post_id : Z)
    (measurements : dict) :
  __make_request self MEASUREMENTS_URL (measurement_params post_id utcnow)
  = Ok (VDict measurements) →
  incomplete measurements →
  get_last_measurement_from_post format self utcnow post_id
  = Err (GetMeasurementError (VDict measurements)).
Proof.
  intros Hreq Hinc. unfold get_last_measurement_from_post. rewrite Hreq.
  unfold reshape, getitem, getitem_last, pop, dict_getitem.
  destruct Hinc as [Hmeta|meta Hmeta Hunits|meta Hmeta [units Hunits] Hdata
                   |meta Hmeta [units Hunits] Hdata
                   |meta sample data Hmeta [units Hunits] Hdata Hlast Haqi];
    rewrite Hmeta; cbn [mbind result_bind]; try done;
    rewrite Hunits; try done; rewrite Hdata; cbn [mbind result_bind];
    try done.
  by rewrite Hlast, Haqi.
Qed.

Lemma incomplete_measurements_raise_GetMeasurementError_witness :
  get_last_measurement_from_post format_plain
    (client_with_json (VDict measurements_without_data)) 1651399680000000 42
  = Err (GetMeasurementError (VDict measurements_without_data)).
Proof.
  apply (incomplete_measurements_raise_GetMeasurementError format_plain
           (client_with_json (VDict measurements_without_data))
           1651399680000000 42 measurements_without_data).
  - reflexivity.
  - apply (no_data _ (list_to_map [("units", VDict ∅)])).
    + reflexivity.
    + by exists (VDict ∅).
    + reflexivity.
Defined.

(** When the [aqi] of the last sample is an object without [cityairAqi],
    the call raises [GetMeasurementError], and the document it carries shows
    the last sample with [aqi] already removed. *)
Theorem failed_rename_leaves_aqi_removed (format : value → string)
    (self : LightAirQ) (utcnow post_id : Z)
    (measurements meta sample aqi : dict) (data : list value) :
  __make_request self MEASUREMENTS_URL (measurement_params post_id utcnow)
  = Ok (VDict measurements) →
  measurements !! "meta" = Some (VDict meta) →
  is_Some (meta !! "units") →
  measurements !! "data" = Some (VList data) →
  last data = Some (VDict sample) →
  sample !! "aqi" = Some (VDict aqi) →
  aqi !! "cityairAqi" = None →
  get_last_measurement_from_post format self utcnow post_id
  = Err (GetMeasurementError
           (VDict (<["data" := VList (removelast data
                                      ++ [VDict (delete "aqi" sample)])]>
                     measurements))).
Proof.
  intros Hreq Hmeta [units Hunits] Hdata Hlast Haqi Hcity.
  unfold get_last_measurement_from_post. rewrite Hreq.
  unfold reshape, getitem, getitem_last, pop, dict_getitem.
  rewrite Hmeta. cbn [mbind result_bind]. rewrite Hunits, Hdata.
  cbn [mbind result_bind]. rewrite Hlast, Haqi, Hcity.
  cbn [mbind result_bind]. unfold store_last. by rewrite Hdata.
Qed.

Lemma failed_rename_leaves_aqi_removed_witness :
  get_last_measurement_from_post format_plain
    (client_with_json (VDict measurements_without_cityairAqi))
    1651399680000000 42
  = Err (GetMeasurementError
           (VDict (<["data" :=
                       VList (removelast
                                [VDict (list_to_map [("pm25", VInt 4);
                                                     ("aqi", VDict ∅)])]
                              ++ [VDict (delete "aqi"
                                           (list_to_map [("pm25", VInt 4);
                                                         ("aqi", VDict ∅)]))])]>
                     measurements_without_cityairAqi))).
Proof.
  apply (failed_rename_leaves_aqi_removed format_plain
           (client_with_json (VDict measurements_without_cityairAqi))
           1651399680000000 42 measurements_without_cityairAqi
           (list_to_map [("units", VDict ∅)])
           (list_to_map [("pm25", VInt 4); ("aqi", VDict ∅)]) ∅);
    try reflexivity.
  by exists (VDict ∅).
Defined.

(** When the server answers the measurements request with a document that
    is not an object (a list, a number, a string), the call raises a bare
    [TypeError]: no clause wraps it into [GetMeasurementError]. *)
Theorem non_object_measurements_raise_TypeError (format : value → string)
    (self : LightAirQ) (utcnow post_id : Z) (measurements : value) :
  __make_request self MEASUREMENTS_URL (measurement_params post_id utcnow)
  = Ok measurements →
  is_VDict measurements = false →
  get_last_measurement_from_post format self utcnow post_id
  = Err (Builtin TypeError).
Proof.
  intros Hreq Hnot. unfold get_last_measurement_from_post. rewrite Hreq.
  by destruct measurements.
Qed.

Lemma non_object_measurements_raise_TypeError_witness :
  get_last_measurement_from_post format_plain
    (client_with_json (VList [VInt 1])) 1651399680000000 42
  = Err (Builtin TypeError).
Proof.
  apply (non_object_measurements_raise_TypeError format_plain
           (client_with_json (VList [VInt 1])) 1651399680000000 42
           (VList [VInt 1])); reflexivity.
Defined.
